(** * Value-system aggregation: the survey pre-processing script

    A shallow embedding of [process_data/process_data.py]: the two score
    mappers [a_adp] and [a_div], the respondent classifier
    [process_participant], the country aggregator [process_country] and the
    driver (the [__main__] block, here [main]).

    Python floats are IEEE binary64 numbers, so they are embedded as Rocq's
    primitive [float]s: every arithmetic step of the script is the very
    operation Python performs.  Python exceptions are embedded as an error
    result; [try ... except BaseException: return None] becomes [catch]. *)

From Stdlib Require Import ZArith List String Ascii Bool Lia.
From Stdlib Require Import Floats.
From Stdlib Require Import Permutation.
Import ListNotations.

Open Scope string_scope.
Open Scope list_scope.
Open Scope Z_scope.

(** ** The fragment of Python the script relies on *)

Module Py.

(** The exceptions the script can meet. *)
Inductive exn : Set :=
| KeyError
| ValueError
| TypeError
| OverflowError
| ZeroDivisionError
| IndexError
| NameError.

Inductive result (A : Type) : Type :=
| Ok (a : A)
| Raise (e : exn).
Arguments Ok {A} a.
Arguments Raise {A} e.

Definition bind {A B} (c : result A) (k : A -> result B) : result B :=
  match c with
  | Ok a => k a
  | Raise e => Raise e
  end.

(** [try: return c  except BaseException: return None] *)
Definition catch {A} (c : result A) : option A :=
  match c with
  | Ok a => Some a
  | Raise _ => None
  end.

(** A loop body run over a list, left to right, stopping at the first
    exception. *)
Fixpoint foldM {A B} (f : A -> B -> result A) (a : A) (l : list B)
  : result A :=
  match l with
  | [] => Ok a
  | x :: l' => bind (f a x) (fun a' => foldM f a' l')
  end.

(** A scalar held by a dataframe cell: a label, a number, or nothing. *)
Inductive value : Set :=
| Str (s : string)
| Int (z : Z)
| Float (f : float)
| NoneV.

(** Numbers, as the arithmetic operators see them. *)
Inductive num : Set :=
| NInt (z : Z)
| NFloat (f : float).

(** [v == 'literal']: only a string equals a string literal. *)
Definition eq_str (v : value) (s : string) : bool :=
  match v with
  | Str t => String.eqb t s
  | _ => false
  end.

(** *** int -> float

    The conversion rounds to the nearest binary64 number, ties to even,
    and raises [OverflowError] when the rounded value would not be
    finite, that is from [2^1024 - 2^970] on. *)
Definition float_max_int : Z := 2 ^ 1024 - 2 ^ 970.

Definition float_of_int (z : Z) : result float :=
  if Z.abs z <? float_max_int
  then Ok (SF2Prim (binary_normalize prec emax z 0 false))
  else Raise OverflowError.

(** *** float -> int, [int(x)] on a float: truncation towards zero *)
Definition int_of_float (f : float) : result Z :=
  match Prim2SF f with
  | S754_nan => Raise ValueError
  | S754_infinity _ => Raise OverflowError
  | S754_zero _ => Ok 0
  | S754_finite s m e =>
      let a := if 0 <=? e then Z.pos m * 2 ^ e else Z.pos m / 2 ^ (- e) in
      Ok (if s then - a else a)
  end.

(** *** str -> int, [int(s)] in base 10

    Surrounding white space is dropped, one sign is allowed, and single
    underscores may separate digits.  Strings are taken as ASCII; the
    interpreter's optional cap on the number of digits is not modelled. *)
Definition is_space (c : ascii) : bool :=
  let n := Z.of_nat (nat_of_ascii c) in
  (n =? 32) || ((9 <=? n) && (n <=? 13)) || ((28 <=? n) && (n <=? 31)).

Definition digit_of (c : ascii) : option Z :=
  let n := Z.of_nat (nat_of_ascii c) in
  if (48 <=? n) && (n <=? 57) then Some (n - 48) else None.

Fixpoint lstrip (s : string) : string :=
  match s with
  | String c s' => if is_space c then lstrip s' else s
  | EmptyString => s
  end.

Fixpoint all_space (s : string) : bool :=
  match s with
  | String c s' => is_space c && all_space s'
  | EmptyString => true
  end.

(** Reads the digits after the first one; stops at the first character
    that is neither a digit nor an underscore. [None]: an underscore is
    not followed by a digit. *)
Fixpoint digits_tail (acc : Z) (s : string) : option (Z * string) :=
  match s with
  | EmptyString => Some (acc, s)
  | String c s' =>
      match digit_of c with
      | Some d => digits_tail (10 * acc + d) s'
      | None =>
          if Ascii.eqb c "_"%char then
            match s' with
            | String c2 s'' =>
                match digit_of c2 with
                | Some d => digits_tail (10 * acc + d) s''
                | None => None
                end
            | EmptyString => None
            end
          else Some (acc, s)
      end
  end.

Definition unsigned_of_string (s : string) : option Z :=
  match s with
  | String c s' =>
      match digit_of c with
      | Some d =>
          match digits_tail d s' with
          | Some (z, rest) => if all_space rest then Some z else None
          | None => None
          end
      | None => None
      end
  | EmptyString => None
  end.

Definition int_of_string (s : string) : result Z :=
  let body :=
    match lstrip s with
    | String c s' =>
        if Ascii.eqb c "-"%char then option_map Z.opp (unsigned_of_string s')
        else if Ascii.eqb c "+"%char then unsigned_of_string s'
        else unsigned_of_string (String c s')
    | EmptyString => None
    end in
  match body with
  | Some z => Ok z
  | None => Raise ValueError
  end.

(** [int(v)] *)
Definition int (v : value) : result Z :=
  match v with
  | Str s => int_of_string s
  | Int z => Ok z
  | Float f => int_of_float f
  | NoneV => Raise TypeError
  end.

(** *** Arithmetic *)

Definition to_float (a : num) : result float :=
  match a with
  | NInt z => float_of_int z
  | NFloat f => Ok f
  end.

Definition neg (a : num) : num :=
  match a with
  | NInt z => NInt (- z)
  | NFloat f => NFloat (- f)%float
  end.

Definition add (a b : num) : result num :=
  match a, b with
  | NInt x, NInt y => Ok (NInt (x + y))
  | _, _ =>
      bind (to_float a) (fun x =>
      bind (to_float b) (fun y => Ok (NFloat (x + y)%float)))
  end.

Definition sub (a b : num) : result num :=
  match a, b with
  | NInt x, NInt y => Ok (NInt (x - y))
  | _, _ =>
      bind (to_float a) (fun x =>
      bind (to_float b) (fun y => Ok (NFloat (x - y)%float)))
  end.

(** [a / b] on two ints: the quotient correctly rounded to binary64.
    The quotient of the absolute values is computed with 64 or more
    significant bits and a sticky last bit, then rounded once. *)
Definition int_true_divide (a b : Z) : result float :=
  if b =? 0 then Raise ZeroDivisionError
  else
    let negative := (a <? 0) && (0 <? b) || (0 <=? a) && (b <? 0) in
    let n := Z.abs a in
    let d := Z.abs b in
    let k := Z.max 0 (64 + Z.log2 d - Z.log2 n) in
    let q := Z.shiftl n k / d in
    let sticky := if Z.shiftl n k mod d =? 0 then 0 else 1 in
    let m := 2 * q + sticky in
    match binary_normalize prec emax m (- (k + 1)) false with
    | S754_infinity _ => Raise OverflowError
    | x => Ok (if negative then - SF2Prim x else SF2Prim x)%float
    end.

(** [a / b].  An int divisor converts to the float zero exactly when it
    is the int zero, so the zero test of a float division by an int is
    made on the int. *)
Definition truediv (a b : num) : result float :=
  match a, b with
  | NInt x, NInt y => int_true_divide x y
  | NFloat x, NInt y =>
      if y =? 0 then Raise ZeroDivisionError
      else bind (float_of_int y) (fun d => Ok (x / d)%float)
  | _, NFloat y =>
      bind (to_float a) (fun x =>
      if (y =? 0)%float then Raise ZeroDivisionError
      else Ok (x / y)%float)
  end.

End Py.

Import Py.

Notation "x <- c ;; k" := (Py.bind c (fun x => k))
  (at level 61, c at next level, right associativity).
Notation "' pat <- c ;; k" :=
  (Py.bind c (fun x => match x with pat => k end))
  (at level 61, pat pattern, c at next level, right associativity).

(** ** Containers *)

(** A Python [dict] with string keys: its items in insertion order. *)
Definition dict (V : Type) : Type := list (string * V).

Definition keys {V} (d : dict V) : list string := map fst d.

(** [d[k]] *)
Definition dict_get {V} (d : dict V) (k : string) : result V :=
  match find (fun kv => String.eqb (fst kv) k) d with
  | Some kv => Ok (snd kv)
  | None => Raise KeyError
  end.

(** [d[key]] for a key read from a dataframe cell.  The keys of the
    dictionaries of the script are strings, which no number and no missing
    value equals. *)
Definition dict_get_value {V} (d : dict V) (key : value) : result V :=
  match key with
  | Str s => dict_get d s
  | _ => Raise KeyError
  end.

(** [d.update({k: v})]: a present key keeps its place, a new one goes
    last. *)
Fixpoint dict_update {V} (d : dict V) (k : string) (v : V) : dict V :=
  match d with
  | [] => [(k, v)]
  | (k', v') :: d' =>
      if String.eqb k' k then (k', v) :: d' else (k', v') :: dict_update d' k v
  end.

(** [Series.unique()]: the distinct values in order of first appearance,
    found with a table of the values already seen. *)
Fixpoint unique_from (seen : list string) (l : list string) : list string :=
  match l with
  | [] => []
  | x :: l' =>
      if existsb (String.eqb x) seen then unique_from seen l'
      else x :: unique_from (x :: seen) l'
  end.

Definition unique (l : list string) : list string := unique_from [] l.

(** [mapM f l]: a list built by a loop that appends [f x] for each [x]. *)
Fixpoint mapM {A B} (f : A -> result B) (l : list A) : result (list B) :=
  match l with
  | [] => Ok []
  | x :: l' => y <- f x ;; ys <- mapM f l' ;; Ok (y :: ys)
  end.

(** ** The data *)

(** One row of the survey, restricted to the five columns the script
    reads.  The country code is a label and the case number an integer;
    the three answers are whatever the file holds. *)
Record row : Set := mkRow {
  c_abrv : string;
  caseno : Z;
  v6 : value;
  v82 : value;
  v155 : value
}.

Definition dataframe : Set := list row.

(** ** Score mappers *)

Definition category_dic : dict Z :=
  [ ("agree strongly", 1);
    ("agree", 2);
    ("neither agree nor disagree", 3);
    ("disagree", 4);
    ("disagree strongly", 5) ].

Definition a_adp (element : row) : option float :=
  catch (
    int_value <- dict_get_value category_dic (v82 element) ;;
    value <- truediv (neg (NInt (int_value - 3))) (NInt 2) ;;
    Ok value).

Definition a_div (element : row) : option float :=
  catch (
    int_value <-
      (if eq_str (v155 element) "never" then Ok 1
       else if eq_str (v155 element) "always" then Ok 10
       else Py.int (v155 element)) ;;
    d <- sub (NInt int_value) (NFloat 5.5) ;;
    value <- truediv d (NFloat 4.5) ;;
    Ok value).

(** ** Respondent classifier *)

Definition participant : Set := bool * option float * option float.

(** The religiosity flag read from the answer to v6. *)
Definition religious_of (religiousness : value) : option bool :=
  if eq_str religiousness "not at all important"
     || eq_str religiousness "not important"
  then Some false
  else if eq_str religiousness "quite important"
          || eq_str religiousness "very important"
  then Some true
  else None.

Definition process_participant (df : dataframe) (cn : Z)
  : result (option participant) :=
  (* dataframe[dataframe['caseno'] == caseno].iloc[0] *)
  match filter (fun r => caseno r =? cn) df with
  | [] => Raise IndexError
  | dataframe_row :: _ =>
      let religious := religious_of (v6 dataframe_row) in
      let action_adp := a_adp dataframe_row in
      let action_div := a_div dataframe_row in
      match religious with
      | None => Ok None
      | Some religious => Ok (Some (religious, action_adp, action_div))
      end
  end.

(** ** Country aggregator *)

(** The ten local counters of [process_country]. *)
Record counters : Set := mkCounters {
  n_religious : Z;
  n_nonreligious : Z;
  n_rel_adp : Z;
  n_nonrel_adp : Z;
  n_rel_div : Z;
  n_nonrel_div : Z;
  sum_a_adp_rel : num;
  sum_a_adp_nonrel : num;
  sum_a_div_rel : num;
  sum_a_div_nonrel : num
}.

Definition counters0 : counters :=
  mkCounters 0 0 0 0 0 0 (NInt 0) (NInt 0) (NInt 0) (NInt 0).

(** What one classified respondent does to the counters. *)
Definition count_participant (st : counters) (tuple_ : participant)
  : result counters :=
  let '(religious, action_adp, action_div) := tuple_ in
  let '(mkCounters nr nn nra nna nrd nnd sar san sdr sdn) := st in
  if religious then
    let nr := nr + 1 in
    '(nra, sar) <-
      match action_adp with
      | Some a => s <- add sar (NFloat a) ;; Ok (nra + 1, s)
      | None => Ok (nra, sar)
      end ;;
    '(nrd, sdr) <-
      match action_div with
      | Some a => s <- add sdr (NFloat a) ;; Ok (nrd + 1, s)
      | None => Ok (nrd, sdr)
      end ;;
    Ok (mkCounters nr nn nra nna nrd nnd sar san sdr sdn)
  else
    let nn := nn + 1 in
    '(nna, san) <-
      match action_adp with
      | Some a => s <- add san (NFloat a) ;; Ok (nna + 1, s)
      | None => Ok (nna, san)
      end ;;
    '(nnd, sdn) <-
      match action_div with
      | Some a => s <- add sdn (NFloat a) ;; Ok (nnd + 1, s)
      | None => Ok (nnd, sdn)
      end ;;
    Ok (mkCounters nr nn nra nna nrd nnd sar san sdr sdn).

(** The body of the loop over the rows of the country. *)
Definition loop_body (df : dataframe) (st : counters) (df_i : row)
  : result counters :=
  let cn := caseno df_i in
  tuple_ <- process_participant df cn ;;
  match tuple_ with
  | Some t => count_participant st t
  | None => Ok st
  end.

(** The rows of one country and the counters after the loop. *)
Definition country_rows (data : dataframe) (country : string) : dataframe :=
  filter (fun r => String.eqb (c_abrv r) country) data.

Definition country_counters (data : dataframe) (country : string)
  : result counters :=
  let df := country_rows data country in
  foldM (loop_body df) counters0 df.

Definition process_country (data : dataframe) (country : string)
  : result (dict num) :=
  st <- country_counters data country ;;
  a_adp_rel <- truediv (sum_a_adp_rel st) (NInt (n_rel_adp st)) ;;
  a_adp_nonrel <- truediv (sum_a_adp_nonrel st) (NInt (n_nonrel_adp st)) ;;
  a_div_rel <- truediv (sum_a_div_rel st) (NInt (n_rel_div st)) ;;
  a_div_nonrel <- truediv (sum_a_div_nonrel st) (NInt (n_nonrel_div st)) ;;
  Ok [ ("rel", NInt (n_religious st));
       ("nonrel", NInt (n_nonreligious st));
       ("a_adp_rel", NFloat a_adp_rel);
       ("a_adp_nonrel", NFloat a_adp_nonrel);
       ("a_div_rel", NFloat a_div_rel);
       ("a_div_nonrel", NFloat a_div_nonrel) ].

(** ** Driver *)

(** A field of the table handed to the CSV writer. *)
Inductive cell : Set :=
| CStr (s : string)
| CNum (n : num).

(** The [__main__] block, from the loaded dataframe to [csv_rows].  The
    loop variable [country] outlives the first loop; it is unbound when
    the loop body never ran. *)
Definition main (df : dataframe) : result (list (list cell)) :=
  st <- foldM (fun (st : dict (dict num) * option string) country =>
                 dict_ <- process_country df country ;;
                 Ok (dict_update (fst st) country dict_, Some country))
              ([], None) (unique (map c_abrv df)) ;;
  let dictionary := fst st in
  country <- match snd st with
             | Some c => Ok c
             | None => Raise NameError
             end ;;
  d <- dict_get dictionary country ;;
  let columns := CStr "country" :: map CStr (keys d) in
  rows <- mapM (fun country =>
                  d <- dict_get dictionary country ;;
                  items <- mapM (fun item =>
                                   d' <- dict_get dictionary country ;;
                                   x <- dict_get d' item ;;
                                   Ok (CNum x))
                                (keys d) ;;
                  Ok (CStr country :: items))
               (keys dictionary) ;;
  Ok (columns :: rows).

(** * Reference definitions used in the statements *)

(** The exact binary64 image of a small integer. *)
Definition float_of_Z (z : Z) : float :=
  SF2Prim (binary_normalize prec emax z 0 false).

(** [lo <= x <= hi] on floats. *)
Definition in_range (lo hi x : float) : Prop :=
  (lo <=? x)%float = true /\ (x <=? hi)%float = true.

(** The classification of a row by its own answers. *)
Definition participant_of_row (r : row) : option participant :=
  match religious_of (v6 r) with
  | None => None
  | Some religious => Some (religious, a_adp r, a_div r)
  end.

(** The first row of a dataframe that carries a case number. *)
Definition first_with_caseno (df : dataframe) (cn : Z) : option row :=
  find (fun r => caseno r =? cn) df.

Definition is_religious (r : row) : bool :=
  match religious_of (v6 r) with
  | Some true => true
  | _ => false
  end.

Definition is_nonreligious (r : row) : bool :=
  match religious_of (v6 r) with
  | Some false => true
  | _ => false
  end.

Definition is_classified (r : row) : bool :=
  match religious_of (v6 r) with
  | Some _ => true
  | None => false
  end.

Definition count (p : row -> bool) (rows : list row) : Z :=
  Z.of_nat (List.length (filter p rows)).

(** The non-missing scores of one kind within one group, in row order. *)
Definition group_scores (grp : row -> bool) (score : row -> option float)
    (rows : list row) : list float :=
  flat_map (fun r => if grp r
                     then match score r with Some x => [x] | None => [] end
                     else []) rows.

(** The value of a variable set to the int 0 and then increased by each
    score in turn. *)
Definition running_sum (xs : list float) : num :=
  match xs with
  | [] => NInt 0
  | x :: xs' => NFloat (fold_left PrimFloat.add xs' (0 + x)%float)
  end.

Definition size (xs : list float) : Z := Z.of_nat (List.length xs).

Definition summary (rows : list row) : counters :=
  mkCounters
    (count is_religious rows)
    (count is_nonreligious rows)
    (size (group_scores is_religious a_adp rows))
    (size (group_scores is_nonreligious a_adp rows))
    (size (group_scores is_religious a_div rows))
    (size (group_scores is_nonreligious a_div rows))
    (running_sum (group_scores is_religious a_adp rows))
    (running_sum (group_scores is_nonreligious a_adp rows))
    (running_sum (group_scores is_religious a_div rows))
    (running_sum (group_scores is_nonreligious a_div rows)).

(** The per-row aggregation: every row counted by its own answers. *)
Definition count_row (st : counters) (r : row) : result counters :=
  match participant_of_row r with
  | Some t => count_participant st t
  | None => Ok st
  end.

Definition aggregate_rows (rows : list row) : result counters :=
  foldM count_row counters0 rows.

(** The row whose answers the loop reads when it is at row [r]. *)
Definition answers_used (df : dataframe) (r : row) : row :=
  match first_with_caseno df (caseno r) with
  | Some r' => r'
  | None => r
  end.

(** The rows read by the loop over one country. *)
Definition rows_read (data : dataframe) (country : string) : list row :=
  let df := country_rows data country in
  map (answers_used df) df.

(** [sum / n] for the sum and the number of a list of scores. *)
Definition mean (xs : list float) : result float :=
  truediv (running_sum xs) (NInt (size xs)).

Definition record_of (st : counters) (m1 m2 m3 m4 : float) : dict num :=
  [ ("rel", NInt (n_religious st));
    ("nonrel", NInt (n_nonreligious st));
    ("a_adp_rel", NFloat m1);
    ("a_adp_nonrel", NFloat m2);
    ("a_div_rel", NFloat m3);
    ("a_div_nonrel", NFloat m4) ].

(** The distinct values of a column, each at its first place: the head,
    then the distinct values of the rest without the head. *)
Fixpoint first_seen (l : list string) : list string :=
  match l with
  | [] => []
  | x :: l' => x :: filter (fun y => negb (String.eqb y x)) (first_seen l')
  end.

(** The variable of a [for] loop after the loop. *)
Definition loop_variable (cs : list string) (before : option string)
  : option string :=
  fold_left (fun _ c => Some c) cs before.

Definition record_keys : list string :=
  ["rel"; "nonrel"; "a_adp_rel"; "a_adp_nonrel"; "a_div_rel"; "a_div_nonrel"].

Definition header : list cell := map CStr ("country" :: record_keys).

(** The row of one country: its code, then the values of its record. *)
Definition csv_row (country : string) (record : dict num) : list cell :=
  CStr country :: map (fun kv => CNum (snd kv)) record.

(** ** Sample data *)

(** An answer of 11 is outside the scale and scores above 1. *)
Definition row_eleven : row :=
  mkRow "ES" 1 (Str "very important") (Str "agree") (Int 11).

(** The Spanish sample of three respondents: one religious, one not (with
    no adoption answer), one who does not say. *)
Definition ES_data : dataframe :=
  [ mkRow "ES" 1 (Str "very important") (Str "agree") (Str "never");
    mkRow "ES" 2 (Str "not important") NoneV (Float 5);
    mkRow "ES" 3 (Str "don't know") (Str "agree strongly") (Int 7) ].

(** The French sample: everybody answers and every group has both scores. *)
Definition FR_data : dataframe :=
  [ mkRow "FR" 1 (Str "quite important") (Str "disagree") (Float 3);
    mkRow "FR" 2 (Str "not at all important") (Str "agree strongly") (Str "always");
    mkRow "FR" 3 (Str "very important") NoneV (Str "never") ].

(** Two rows of one country under one case number: a religious respondent
    first, a non-religious one second. *)
Definition twin_data : dataframe :=
  [ mkRow "PT" 7 (Str "very important") (Str "agree") (Float 2);
    mkRow "PT" 7 (Str "not important") (Str "disagree") (Float 9) ].

(** Two countries, met in the order FR, ES, FR, ES. *)
Definition two_countries : dataframe :=
  [ mkRow "FR" 1 (Str "quite important") (Str "disagree") (Float 3);
    mkRow "ES" 1 (Str "very important") (Str "agree") (Str "never");
    mkRow "FR" 2 (Str "not at all important") (Str "agree strongly") (Str "always");
    mkRow "ES" 2 (Str "not important") (Str "neither agree nor disagree") (Float 5) ].

(** ** Further reference definitions *)

(** The integer [a_div] reads from an answer: the first three branches of
    its body. *)
Definition divorce_int (answer : value) : result Z :=
  if eq_str answer "never" then Ok 1
  else if eq_str answer "always" then Ok 10
  else Py.int answer.

(** [m] is the float sum of the scores, taken left to right from the int
    0, divided by their number. *)
Definition is_mean_of (m : float) (xs : list float) : Prop :=
  exists x xs',
    xs = x :: xs' /\
    m = (fold_left PrimFloat.add xs' (0 + x) / float_of_Z (size xs))%float.

(** A row has a score of the given kind. *)
Definition has_score (score : row -> option float) (r : row) : bool :=
  match score r with
  | Some _ => true
  | None => false
  end.

(** Four respondents of one country, and the same four in another order. *)
Definition order_data : dataframe :=
  [ mkRow "ES" 1 (Str "very important") (Str "agree") (Int 1);
    mkRow "ES" 2 (Str "very important") (Str "agree") (Int 1);
    mkRow "ES" 3 (Str "very important") (Str "agree") (Int 4);
    mkRow "ES" 4 (Str "not important") (Str "agree") (Int 5) ].

Definition order_data' : dataframe :=
  [ mkRow "ES" 3 (Str "very important") (Str "agree") (Int 4);
    mkRow "ES" 1 (Str "very important") (Str "agree") (Int 1);
    mkRow "ES" 2 (Str "very important") (Str "agree") (Int 1);
    mkRow "ES" 4 (Str "not important") (Str "agree") (Int 5) ].

(** * The Python fragment on examples *)

Example int_of_labels :
  map (fun s => Py.int (Str s)) ["5"; " 7 "; "+10"; "-3"; "1_0"; "0011"]
    = [Ok 5; Ok 7; Ok 10; Ok (-3); Ok 10; Ok 11] /\
  map (fun s => catch (Py.int (Str s)))
      ["never"; "5.0"; "1__0"; "_1"; "1_"; "- 5"; "5 x"; ""]
    = [None; None; None; None; None; None; None; None].
Proof. split; reflexivity. Qed.

Example int_of_numbers :
  map Py.int [Float 5; Float 3.75; Float (-3.75); Float (-0); Int 11; NoneV]
    = [Ok 5; Ok 3; Ok (-3); Ok 0; Ok 11; Raise TypeError] /\
  Py.int (Float nan) = Raise ValueError /\
  Py.int (Float infinity) = Raise OverflowError.
Proof. repeat split; reflexivity. Qed.

Example truediv_examples :
  truediv (NInt 2) (NInt 2) = Ok 1%float /\
  truediv (NInt (-1)) (NInt 2) = Ok (-0.5)%float /\
  truediv (NInt 0) (NInt 2) = Ok 0%float /\
  truediv (NInt 7) (NInt 0) = Raise ZeroDivisionError /\
  truediv (NFloat 1) (NInt 0) = Raise ZeroDivisionError /\
  truediv (NFloat 1) (NFloat (-0)) = Raise ZeroDivisionError /\
  truediv (NFloat 3) (NInt 2) = Ok 1.5%float /\
  truediv (NInt (2 ^ 54 + 6)) (NInt 2) = Ok (float_of_Z (2 ^ 53 + 4)) /\
  truediv (NInt (10 ^ 400)) (NInt 1) = Raise OverflowError.
Proof. repeat split; reflexivity. Qed.

(** * Properties of the score mappers *)

Section Mappers.

Variable element : row.

Lemma a_adp_not_str :
  (forall s, v82 element <> Str s) -> a_adp element = None.
Proof.
  intros H. unfold a_adp.
  destruct (v82 element) as [s| | |]; try reflexivity.
  now destruct (H s).
Qed.

Lemma a_adp_str (s : string) :
  v82 element = Str s ->
  a_adp element =
    if String.eqb s "agree strongly" then Some 1%float
    else if String.eqb s "agree" then Some 0.5%float
    else if String.eqb s "neither agree nor disagree" then Some 0%float
    else if String.eqb s "disagree" then Some (-0.5)%float
    else if String.eqb s "disagree strongly" then Some (-1)%float
    else None.
Proof.
  intros H. unfold a_adp. rewrite H. unfold dict_get_value, dict_get, category_dic.
  cbn [find fst snd].
  rewrite !(String.eqb_sym _ s).
  destruct (String.eqb s "agree strongly"); [reflexivity|].
  destruct (String.eqb s "agree"); [reflexivity|].
  destruct (String.eqb s "neither agree nor disagree"); [reflexivity|].
  destruct (String.eqb s "disagree"); [reflexivity|].
  destruct (String.eqb s "disagree strongly"); reflexivity.
Qed.

End Mappers.

Ltac split_eqb s :=
  repeat match goal with
         | |- context [String.eqb s ?k] => destruct (String.eqb s k)
         | H : context [String.eqb s ?k] |- _ => destruct (String.eqb s k)
         end.

Lemma a_adp_some (element : row) (x : float) :
  a_adp element = Some x ->
  In x [1; 0.5; 0; -0.5; -1]%float /\
  In (v82 element) (map Str (keys category_dic)).
Proof.
  intros Hx.
  destruct (v82 element) as [s| | |] eqn:Hv;
    try (rewrite a_adp_not_str in Hx; [discriminate | congruence]).
  rewrite (a_adp_str element s Hv) in Hx. simpl.
  destruct (String.eqb_spec s "agree strongly");
    [injection Hx as <-; subst; tauto|].
  destruct (String.eqb_spec s "agree");
    [injection Hx as <-; subst; tauto|].
  destruct (String.eqb_spec s "neither agree nor disagree");
    [injection Hx as <-; subst; tauto|].
  destruct (String.eqb_spec s "disagree");
    [injection Hx as <-; subst; tauto|].
  destruct (String.eqb_spec s "disagree strongly");
    [injection Hx as <-; subst; tauto|].
  discriminate.
Qed.

Lemma category_dic_rank (s : string) (rank : Z) :
  dict_get category_dic s = Ok rank ->
  1 <= rank <= 5 /\
  forall element, v82 element = Str s ->
    a_adp element = Some (float_of_Z (- (rank - 3)) / 2)%float.
Proof.
  intros Hget.
  unfold dict_get, category_dic in Hget. cbn [find fst snd] in Hget.
  rewrite !(String.eqb_sym _ s) in Hget.
  split.
  - split_eqb s; inversion Hget; lia.
  - intros element Hv. rewrite (a_adp_str element s Hv).
    split_eqb s; inversion Hget; reflexivity.
Qed.

(** C4. The adoption mapper sends the five recognised answers to the ranks
    1..5 and to the score -(rank - 3) / 2, so the recognised answers score
    exactly 1, 0.5, 0, -0.5 and -1 (agree strongly, agree, neither, disagree,
    disagree strongly), and every other answer, a number or an absent one
    included, scores "missing" ([None]), not 0. *)
Theorem a_adp_five_categories :
  (forall c n r d,
      a_adp (mkRow c n r (Str "agree strongly") d) = Some 1%float /\
      a_adp (mkRow c n r (Str "agree") d) = Some 0.5%float /\
      a_adp (mkRow c n r (Str "neither agree nor disagree") d) = Some 0%float /\
      a_adp (mkRow c n r (Str "disagree") d) = Some (-0.5)%float /\
      a_adp (mkRow c n r (Str "disagree strongly") d) = Some (-1)%float) /\
  (forall element s rank,
      v82 element = Str s -> dict_get category_dic s = Ok rank ->
      1 <= rank <= 5 /\
      a_adp element = Some (float_of_Z (- (rank - 3)) / 2)%float) /\
  (forall element x,
      a_adp element = Some x ->
      In x [1; 0.5; 0; -0.5; -1]%float /\
      In (v82 element) (map Str (keys category_dic))) /\
  (forall element,
      ~ In (v82 element) (map Str (keys category_dic)) ->
      a_adp element = None).
Proof.
  split; [intros; repeat split; reflexivity|].
  split; [|split].
  - intros element s rank Hv Hget.
    destruct (category_dic_rank s rank Hget) as [Hrank Hscore]. auto.
  - exact a_adp_some.
  - intros element Hnot.
    destruct (a_adp element) as [x|] eqn:Hx; [|reflexivity].
    destruct (Hnot (proj2 (a_adp_some element x Hx))).
Qed.

(** The recognised and the unrecognised answers of C4 at work. *)
Lemma a_adp_five_categories_witness :
  a_adp (mkRow "ES" 1 NoneV (Str "disagree") NoneV)
    = Some (float_of_Z (- (4 - 3)) / 2)%float /\
  a_adp (mkRow "ES" 1 NoneV (Str "no answer") NoneV) = None /\
  a_adp (mkRow "ES" 1 NoneV (Float nan) NoneV) = None.
Proof.
  destruct a_adp_five_categories as (_ & Hrank & _ & Hnone).
  split; [|split].
  - apply (Hrank _ "disagree" 4); reflexivity.
  - apply Hnone. simpl. intuition discriminate.
  - apply Hnone. simpl. intuition discriminate.
Defined.

Lemma int_endpoints_raise (v : value) (z : Z) :
  Py.int v = Ok z ->
  eq_str v "never" = false /\ eq_str v "always" = false.
Proof.
  intros Hint.
  destruct v as [s| | |]; simpl; auto.
  split.
  - destruct (String.eqb_spec s "never"); [subst; discriminate | reflexivity].
  - destruct (String.eqb_spec s "always"); [subst; discriminate | reflexivity].
Qed.

Lemma float_of_int_small (z : Z) :
  Z.abs z < float_max_int -> float_of_int z = Ok (float_of_Z z).
Proof.
  intros Hz. unfold float_of_int.
  apply Z.ltb_lt in Hz. now rewrite Hz.
Qed.

(** What [a_div] computes from an answer that converts to an int. *)
Lemma a_div_of_int (element : row) (z : Z) :
  Py.int (v155 element) = Ok z ->
  Z.abs z < float_max_int ->
  a_div element = Some ((float_of_Z z - 5.5) / 4.5)%float.
Proof.
  intros Hint Hz.
  destruct (int_endpoints_raise _ _ Hint) as [Hn Ha].
  unfold a_div. rewrite Hn, Ha, Hint.
  cbn [bind sub to_float]. rewrite (float_of_int_small z Hz).
  reflexivity.
Qed.

Lemma a_div_of_bad_int (element : row) (z : Z) :
  Py.int (v155 element) = Ok z ->
  float_max_int <= Z.abs z ->
  a_div element = None.
Proof.
  intros Hint Hz.
  destruct (int_endpoints_raise _ _ Hint) as [Hn Ha].
  unfold a_div. rewrite Hn, Ha, Hint.
  cbn [bind sub to_float]. unfold float_of_int.
  apply Z.ltb_ge in Hz. now rewrite Hz.
Qed.

(** C3. The divorce mapper sends "never" to -1 and "always" to 1, an answer
    that converts to an integer v of 1..10 to (v - 5.5) / 4.5, and an
    answer that is neither of the two words and does not convert to an
    integer to "missing" ([None]). *)
Theorem a_div_scale :
  (forall c n r a, a_div (mkRow c n r a (Str "never")) = Some (-1)%float) /\
  (forall c n r a, a_div (mkRow c n r a (Str "always")) = Some 1%float) /\
  (forall element v,
      Py.int (v155 element) = Ok v -> 1 <= v <= 10 ->
      a_div element = Some ((float_of_Z v - 5.5) / 4.5)%float) /\
  (forall element e,
      eq_str (v155 element) "never" = false ->
      eq_str (v155 element) "always" = false ->
      Py.int (v155 element) = Raise e ->
      a_div element = None).
Proof.
  split; [reflexivity|]. split; [reflexivity|]. split.
  - intros element v Hint Hv. apply a_div_of_int; [exact Hint|].
    assert (Hbig : 10 < float_max_int) by reflexivity. lia.
  - intros element e Hn Ha Hint. unfold a_div. now rewrite Hn, Ha, Hint.
Qed.

(** The answers of C3 at work: a label, an int, a float and digits in a
    string all reach the same score. *)
Lemma a_div_scale_witness :
  a_div (mkRow "ES" 1 NoneV NoneV (Str "7")) = Some ((float_of_Z 7 - 5.5) / 4.5)%float /\
  a_div (mkRow "ES" 1 NoneV NoneV (Float 7)) = Some ((float_of_Z 7 - 5.5) / 4.5)%float /\
  a_div (mkRow "ES" 1 NoneV NoneV (Str "seven")) = None.
Proof.
  destruct a_div_scale as (_ & _ & Hint & Hbad).
  split; [|split].
  - apply Hint; [reflexivity | lia].
  - apply Hint; [reflexivity | lia].
  - apply (Hbad _ ValueError); reflexivity.
Defined.

(** Within the scale both mappers stay in [-1, 1]. *)
Lemma a_adp_in_range (element : row) (x : float) :
  a_adp element = Some x -> in_range (-1) 1 x.
Proof.
  intros Hx.
  destruct (a_adp_some element x Hx) as [Hx' _].
  simpl in Hx'.
  repeat (destruct Hx' as [<- | Hx']; [split; reflexivity|]).
  destruct Hx'.
Qed.

Lemma a_div_in_range (element : row) (v : Z) :
  Py.int (v155 element) = Ok v -> 1 <= v <= 10 ->
  exists x, a_div element = Some x /\ in_range (-1) 1 x.
Proof.
  intros Hint Hv.
  assert (Hbig : 10 < float_max_int) by reflexivity.
  rewrite (a_div_of_int element v Hint) by lia.
  eexists; split; [reflexivity|].
  assert (Hcases : v = 1 \/ v = 2 \/ v = 3 \/ v = 4 \/ v = 5 \/
                   v = 6 \/ v = 7 \/ v = 8 \/ v = 9 \/ v = 10) by lia.
  repeat (destruct Hcases as [-> | Hcases]; [split; reflexivity|]).
  subst v. split; reflexivity.
Qed.

(** C2. The docstrings promise a score in [-1, 1] or nothing; the divorce
    mapper applies its formula to any integer, so the answer 11 scores
    1.2222222222222223 (and the classifier passes it on). *)
Theorem a_div_out_of_range :
  a_div row_eleven = Some ((float_of_Z 11 - 5.5) / 4.5)%float /\
  (1 <? (float_of_Z 11 - 5.5) / 4.5)%float = true /\
  process_participant [row_eleven] 1 =
    Ok (Some (true, Some 0.5%float, Some ((float_of_Z 11 - 5.5) / 4.5)%float)).
Proof.
  repeat split; reflexivity.
Qed.

(** * The classifier *)

Lemma filter_head_find {A} (p : A -> bool) (l : list A) :
  find p l = hd_error (filter p l).
Proof.
  induction l as [|x l IH]; simpl; [reflexivity|].
  destruct (p x); [reflexivity | exact IH].
Qed.

Lemma process_participant_first (df : dataframe) (cn : Z) :
  process_participant df cn =
    match first_with_caseno df cn with
    | Some r => Ok (participant_of_row r)
    | None => Raise IndexError
    end.
Proof.
  unfold process_participant, first_with_caseno, participant_of_row.
  rewrite filter_head_find.
  destruct (filter _ df) as [|r rest]; simpl; [reflexivity|].
  destruct (religious_of (v6 r)); reflexivity.
Qed.

Lemma first_with_caseno_none (df : dataframe) (cn : Z) :
  first_with_caseno df cn = None <-> ~ In cn (map caseno df).
Proof.
  unfold first_with_caseno.
  induction df as [|r df IH]; simpl; [tauto|].
  destruct (Z.eqb_spec (caseno r) cn) as [Heq|Hne].
  - split; [discriminate | intros H; destruct H; auto].
  - rewrite IH. tauto.
Qed.

Lemma first_with_caseno_some (df : dataframe) (cn : Z) (r : row) :
  first_with_caseno df cn = Some r -> In r df /\ caseno r = cn.
Proof.
  unfold first_with_caseno. intros H.
  apply find_some in H. destruct H as [Hin Heq].
  split; [exact Hin | now apply Z.eqb_eq].
Qed.

(** With case numbers all different, a row is found under its own. *)
Lemma first_with_caseno_self (df : dataframe) (r : row) :
  NoDup (map caseno df) -> In r df ->
  first_with_caseno df (caseno r) = Some r.
Proof.
  unfold first_with_caseno.
  induction df as [|r0 df IH]; simpl; intros Hnd Hin; [destruct Hin|].
  inversion Hnd as [|? ? Hnotin Hnd']; subst.
  destruct (Z.eqb_spec (caseno r0) (caseno r)) as [Heq|Hne].
  - destruct Hin as [-> | Hin]; [reflexivity|].
    destruct Hnotin. rewrite Heq. now apply in_map.
  - destruct Hin as [-> | Hin]; [congruence | auto].
Qed.

Lemma religious_of_cases (v : value) :
  (religious_of v = Some false <->
     v = Str "not at all important" \/ v = Str "not important") /\
  (religious_of v = Some true <->
     v = Str "quite important" \/ v = Str "very important").
Proof.
  split; (split; [|intros [-> | ->]; reflexivity]);
    unfold religious_of; destruct v as [s| | |]; simpl; try discriminate;
    destruct (String.eqb_spec s "not at all important") as [->|H1];
    simpl; auto; try discriminate;
    destruct (String.eqb_spec s "not important") as [->|H2];
    simpl; auto; try discriminate;
    destruct (String.eqb_spec s "quite important") as [->|H3];
    simpl; auto; try discriminate;
    destruct (String.eqb_spec s "very important") as [->|H4];
    simpl; auto; discriminate.
Qed.

(** * The aggregator *)

(** ** A summary of a list of rows, each read by its own answers *)

Lemma running_sum_snoc (xs : list float) (x : float) :
  add (running_sum xs) (NFloat x) = Ok (running_sum (xs ++ [x])).
Proof.
  destruct xs as [|y ys]; [reflexivity|].
  simpl. now rewrite fold_left_app.
Qed.

Lemma size_snoc (xs : list float) (x : float) :
  size (xs ++ [x]) = size xs + 1.
Proof.
  unfold size. rewrite length_app. simpl. lia.
Qed.

Lemma count_snoc (p : row -> bool) (rows : list row) (r : row) :
  count p (rows ++ [r]) = count p rows + (if p r then 1 else 0).
Proof.
  unfold count. rewrite filter_app, length_app. simpl.
  destruct (p r); simpl; lia.
Qed.

Lemma group_scores_snoc grp score (rows : list row) (r : row) :
  group_scores grp score (rows ++ [r]) =
    (group_scores grp score rows ++
       (if grp r then match score r with Some x => [x] | None => [] end
        else []))%list.
Proof.
  unfold group_scores. rewrite flat_map_app. simpl. now rewrite app_nil_r.
Qed.

Lemma count_row_summary (done : list row) (r : row) :
  count_row (summary done) r = Ok (summary (done ++ [r])).
Proof.
  unfold count_row, participant_of_row, summary.
  rewrite !group_scores_snoc, !count_snoc.
  unfold is_religious, is_nonreligious.
  destruct (religious_of (v6 r)) as [[|]|]; cbn [count_participant];
    destruct (a_adp r) as [a|]; destruct (a_div r) as [d|];
    rewrite ?running_sum_snoc; cbn [bind];
    rewrite ?running_sum_snoc; cbn [bind];
    rewrite ?size_snoc, ?app_nil_r, ?Z.add_0_r; reflexivity.
Qed.

Lemma foldM_count_row (done rows : list row) :
  foldM count_row (summary done) rows = Ok (summary (done ++ rows)).
Proof.
  revert done. induction rows as [|r rows IH]; intros done; simpl.
  - now rewrite app_nil_r.
  - rewrite count_row_summary. simpl. rewrite IH.
    now rewrite <- app_assoc.
Qed.

(** The per-row aggregation never raises and yields the summary. *)
Lemma aggregate_rows_summary (rows : list row) :
  aggregate_rows rows = Ok (summary rows).
Proof.
  exact (foldM_count_row [] rows).
Qed.

(** The loop of [process_country] is the per-row aggregation of the rows
    whose answers it reads. *)
Lemma loop_body_count_row (df : dataframe) (st : counters) (r : row) :
  In r df -> loop_body df st r = count_row st (answers_used df r).
Proof.
  intros Hin. unfold loop_body, answers_used.
  rewrite process_participant_first.
  destruct (first_with_caseno df (caseno r)) as [r'|] eqn:Hf; [reflexivity|].
  apply first_with_caseno_none in Hf. destruct Hf. now apply in_map.
Qed.

Lemma foldM_loop_body (df : dataframe) (rows : list row) (st : counters) :
  incl rows df ->
  foldM (loop_body df) st rows =
    foldM count_row st (map (answers_used df) rows).
Proof.
  revert st. induction rows as [|r rows IH]; intros st Hincl; [reflexivity|].
  simpl. rewrite loop_body_count_row by (apply Hincl; now left).
  destruct (count_row st (answers_used df r)) as [st'|e]; simpl;
    [|reflexivity].
  apply IH. intros x Hx. apply Hincl. now right.
Qed.

Lemma country_counters_summary (data : dataframe) (country : string) :
  country_counters data country = Ok (summary (rows_read data country)).
Proof.
  unfold country_counters, rows_read.
  rewrite foldM_loop_body by apply incl_refl.
  apply aggregate_rows_summary.
Qed.

Lemma answers_used_self (df : dataframe) (r : row) :
  NoDup (map caseno df) -> In r df -> answers_used df r = r.
Proof.
  intros Hnd Hin. unfold answers_used.
  now rewrite (first_with_caseno_self df r Hnd Hin).
Qed.

Lemma rows_read_unique (data : dataframe) (country : string) :
  NoDup (map caseno (country_rows data country)) ->
  rows_read data country = country_rows data country.
Proof.
  intros Hnd. unfold rows_read.
  rewrite <- (map_id (country_rows data country)) at 3.
  apply map_ext_in. intros r Hin. now apply answers_used_self.
Qed.

(** ** The four means *)

Lemma mean_nil : mean [] = Raise ZeroDivisionError.
Proof. reflexivity. Qed.

Lemma mean_cons (x : float) (xs : list float) :
  size (x :: xs) < float_max_int ->
  mean (x :: xs) =
    Ok (fold_left PrimFloat.add xs (0 + x) / float_of_Z (size (x :: xs)))%float.
Proof.
  intros Hsize. unfold mean. cbn [running_sum truediv].
  assert (Hpos : 0 < size (x :: xs)) by (unfold size; simpl; lia).
  destruct (Z.eqb_spec (size (x :: xs)) 0) as [H0|_]; [lia|].
  rewrite float_of_int_small by lia. reflexivity.
Qed.

Lemma mean_cases (xs : list float) :
  size xs < float_max_int ->
  (xs = [] /\ mean xs = Raise ZeroDivisionError) \/
  (xs <> [] /\ exists m, mean xs = Ok m).
Proof.
  intros Hsize. destruct xs as [|x xs].
  - left. split; reflexivity.
  - right. split; [discriminate|]. rewrite mean_cons by exact Hsize. eauto.
Qed.

(** [process_country] in closed form: the counts and the four means of the
    rows it reads. *)
Lemma process_country_means (data : dataframe) (country : string) :
  process_country data country =
    let rows := rows_read data country in
    m1 <- mean (group_scores is_religious a_adp rows) ;;
    m2 <- mean (group_scores is_nonreligious a_adp rows) ;;
    m3 <- mean (group_scores is_religious a_div rows) ;;
    m4 <- mean (group_scores is_nonreligious a_div rows) ;;
    Ok (record_of (summary rows) m1 m2 m3 m4).
Proof.
  unfold process_country. rewrite country_counters_summary. reflexivity.
Qed.

Lemma group_scores_length grp score (rows : list row) :
  (List.length (group_scores grp score rows) <= List.length rows)%nat.
Proof.
  induction rows as [|r rows IH]; simpl; [lia|].
  rewrite length_app.
  destruct (grp r); [destruct (score r)|]; simpl; lia.
Qed.

Lemma group_scores_nil grp score (rows : list row) :
  group_scores grp score rows = [] <->
  forall r, In r rows -> grp r = true -> score r = None.
Proof.
  induction rows as [|r rows IH]; simpl.
  - split; [intros _ r [] | reflexivity].
  - split.
    + intros H. apply app_eq_nil in H. destruct H as [Hr Hrows].
      intros x [Hxr|Hx] Hgrp.
      * subst x. rewrite Hgrp in Hr. now destruct (score r).
      * now apply (proj1 IH Hrows x).
    + intros H.
      assert (Hrows : group_scores grp score rows = [])
        by (apply IH; intros x Hx; apply H; now right).
      rewrite Hrows, app_nil_r.
      destruct (grp r) eqn:Hgrp; [|reflexivity].
      now rewrite (H r (or_introl eq_refl) Hgrp).
Qed.

Lemma rows_read_length (data : dataframe) (country : string) :
  (List.length (rows_read data country) <= List.length data)%nat.
Proof.
  unfold rows_read, country_rows. rewrite length_map. apply filter_length_le.
Qed.

Lemma group_scores_size grp score (data : dataframe) (country : string) :
  Z.of_nat (List.length data) < 2 ^ 63 ->
  size (group_scores grp score (rows_read data country)) < float_max_int.
Proof.
  intros Hlen. unfold size.
  pose proof (group_scores_length grp score (rows_read data country)).
  pose proof (rows_read_length data country).
  assert (Hbig : 2 ^ 63 < float_max_int) by reflexivity.
  lia.
Qed.

(** C1. The four means are sum / count with no test of the count.  For a
    dataframe of fewer than 2^63 rows, [process_country] raises
    ZeroDivisionError exactly when one of the two groups of the country has
    no respondent with a score of one of the two kinds, and returns a
    record exactly when all four lists of scores are non-empty.  The
    respondents are the rows of the country, each read through its case
    number; with case numbers all different these are the rows themselves. *)
Theorem process_country_zero_division
    (data : dataframe) (country : string)
    (Hlen : Z.of_nat (List.length data) < 2 ^ 63) :
  let rows := rows_read data country in
  let adp_rel := group_scores is_religious a_adp rows in
  let adp_nonrel := group_scores is_nonreligious a_adp rows in
  let div_rel := group_scores is_religious a_div rows in
  let div_nonrel := group_scores is_nonreligious a_div rows in
  (forall st, country_counters data country = Ok st ->
     process_country data country =
       (m1 <- truediv (sum_a_adp_rel st) (NInt (n_rel_adp st)) ;;
        m2 <- truediv (sum_a_adp_nonrel st) (NInt (n_nonrel_adp st)) ;;
        m3 <- truediv (sum_a_div_rel st) (NInt (n_rel_div st)) ;;
        m4 <- truediv (sum_a_div_nonrel st) (NInt (n_nonrel_div st)) ;;
        Ok (record_of st m1 m2 m3 m4)) /\
     n_rel_adp st = size adp_rel /\ n_nonrel_adp st = size adp_nonrel /\
     n_rel_div st = size div_rel /\ n_nonrel_div st = size div_nonrel) /\
  (adp_rel = [] \/ adp_nonrel = [] \/ div_rel = [] \/ div_nonrel = [] <->
   process_country data country = Raise ZeroDivisionError) /\
  (adp_rel <> [] /\ adp_nonrel <> [] /\ div_rel <> [] /\ div_nonrel <> [] <->
   exists d, process_country data country = Ok d) /\
  (forall grp score,
      group_scores grp score rows = [] <->
      forall r, In r rows -> grp r = true -> score r = None) /\
  (NoDup (map caseno (country_rows data country)) ->
   rows = country_rows data country).
Proof.
  intros rows adp_rel adp_nonrel div_rel div_nonrel.
  split.
  { intros st Hst. unfold process_country. rewrite Hst.
    rewrite country_counters_summary in Hst. injection Hst as <-.
    repeat split; reflexivity. }
  split; [|split;
             [|split; [intros grp score; apply group_scores_nil
                      |apply rows_read_unique]]];
    rewrite process_country_means; cbv zeta;
    fold rows; fold adp_rel adp_nonrel div_rel div_nonrel;
    destruct (mean_cases adp_rel (group_scores_size _ _ data country Hlen))
      as [[E1 ->] | [N1 [m1 ->]]];
    destruct (mean_cases adp_nonrel (group_scores_size _ _ data country Hlen))
      as [[E2 ->] | [N2 [m2 ->]]];
    destruct (mean_cases div_rel (group_scores_size _ _ data country Hlen))
      as [[E3 ->] | [N3 [m3 ->]]];
    destruct (mean_cases div_nonrel (group_scores_size _ _ data country Hlen))
      as [[E4 ->] | [N4 [m4 ->]]];
    cbn [bind];
    (split; intros H;
     first [ reflexivity
           | solve [eauto]
           | tauto
           | discriminate H
           | destruct H as [d H]; discriminate H
           | exfalso; tauto ]).
Qed.

(** C1 on the Spanish sample: nobody in the non-religious group has an
    adoption score. *)
Lemma process_country_zero_division_witness :
  Z.of_nat (List.length ES_data) < 2 ^ 63 /\
  process_country ES_data "ES" = Raise ZeroDivisionError.
Proof.
  assert (Hlen : Z.of_nat (List.length ES_data) < 2 ^ 63) by reflexivity.
  split; [exact Hlen|].
  apply (proj1 (proj2 (process_country_zero_division ES_data "ES" Hlen))).
  right. left. reflexivity.
Defined.

(** ** Counting lemmas *)

Lemma count_le_length (p : row -> bool) (rows : list row) :
  count p rows <= Z.of_nat (List.length rows).
Proof.
  unfold count. pose proof (filter_length_le p rows). lia.
Qed.

Lemma count_full (p : row -> bool) (rows : list row) :
  count p rows = Z.of_nat (List.length rows) <->
  forall r, In r rows -> p r = true.
Proof.
  unfold count. induction rows as [|r rows IH]; cbn [filter List.length].
  - split; [intros _ r [] | intros _; reflexivity].
  - pose proof (filter_length_le p rows) as Hle.
    destruct (p r) eqn:Hp; cbn [List.length].
    + split.
      * intros H x [<- | Hx]; [exact Hp|]. apply IH; [lia | exact Hx].
      * intros H.
        assert (Hrows : forall x, In x rows -> p x = true)
          by (intros x Hx; apply H; now right).
        apply IH in Hrows. lia.
    + split; [lia|]. intros H. specialize (H r (or_introl eq_refl)).
      congruence.
Qed.

Lemma count_groups (rows : list row) :
  count is_religious rows + count is_nonreligious rows =
    count is_classified rows.
Proof.
  unfold count. induction rows as [|r rows IH]; [reflexivity|].
  cbn [filter].
  unfold is_religious at 1, is_nonreligious at 1, is_classified at 1.
  destruct (religious_of (v6 r)) as [[|]|]; cbn [List.length]; lia.
Qed.

Lemma filter_filter_sub {A} (p q : A -> bool) (l : list A) :
  (forall x, p x = true -> q x = true) ->
  filter p (filter q l) = filter p l.
Proof.
  intros Hpq. induction l as [|x l IH]; simpl; [reflexivity|].
  destruct (q x) eqn:Hq; simpl.
  - now rewrite IH.
  - destruct (p x) eqn:Hp; [|exact IH].
    apply Hpq in Hp. congruence.
Qed.

Lemma group_scores_filter grp score (q : row -> bool) (rows : list row) :
  (forall r, grp r = true -> q r = true) ->
  group_scores grp score (filter q rows) = group_scores grp score rows.
Proof.
  intros Hsub. induction rows as [|r rows IH]; simpl; [reflexivity|].
  destruct (q r) eqn:Hq; simpl.
  - now rewrite IH.
  - destruct (grp r) eqn:Hg; [|exact IH].
    apply Hsub in Hg. congruence.
Qed.

Lemma religious_classified (r : row) :
  is_religious r = true -> is_classified r = true.
Proof.
  unfold is_religious, is_classified.
  now destruct (religious_of (v6 r)) as [[|]|].
Qed.

Lemma nonreligious_classified (r : row) :
  is_nonreligious r = true -> is_classified r = true.
Proof.
  unfold is_nonreligious, is_classified.
  now destruct (religious_of (v6 r)) as [[|]|].
Qed.

(** Leaving the undetermined rows out changes no counter. *)
Lemma summary_classified (rows : list row) :
  summary (filter is_classified rows) = summary rows.
Proof.
  unfold summary, count.
  rewrite !(filter_filter_sub _ is_classified)
    by (apply religious_classified || apply nonreligious_classified).
  rewrite !(group_scores_filter _ _ is_classified)
    by (apply religious_classified || apply nonreligious_classified).
  reflexivity.
Qed.

Lemma filter_comm {A} (p q : A -> bool) (l : list A) :
  filter p (filter q l) = filter q (filter p l).
Proof.
  induction l as [|x l IH]; simpl; [reflexivity|].
  destruct (p x) eqn:Hp, (q x) eqn:Hq; simpl;
    rewrite ?Hp, ?Hq, IH; reflexivity.
Qed.

Lemma NoDup_caseno_filter (p : row -> bool) (rows : list row) :
  NoDup (map caseno rows) -> NoDup (map caseno (filter p rows)).
Proof.
  induction rows as [|r rows IH]; simpl; intros Hnd; [constructor|].
  inversion Hnd as [|? ? Hnotin Hnd']; subst.
  destruct (p r); simpl; [|auto].
  constructor; [|auto].
  intros Hin. apply Hnotin.
  apply in_map_iff in Hin. destruct Hin as [x [Hx Hin]].
  apply filter_In in Hin. rewrite <- Hx. apply in_map. tauto.
Qed.

Lemma process_participant_read (df : dataframe) (r : row) :
  In r df ->
  process_participant df (caseno r) =
    Ok (participant_of_row (answers_used df r)).
Proof.
  intros Hin. rewrite process_participant_first. unfold answers_used.
  destruct (first_with_caseno df (caseno r)) as [r'|] eqn:Hf; [reflexivity|].
  apply first_with_caseno_none in Hf. destruct Hf. now apply in_map.
Qed.

Lemma participant_none_classified (r : row) :
  participant_of_row r = None <-> is_classified r = false.
Proof.
  unfold participant_of_row, is_classified.
  destruct (religious_of (v6 r)); split; congruence.
Qed.

(** * The claims on the classifier and the counts *)

(** C5. The classifier reads the answer on the importance of religion:
    "not at all important" and "not important" give non-religious, "quite
    important" and "very important" give religious, anything else ("don't
    know", a number, a missing value) is undetermined.  An undetermined
    respondent makes the classifier return [None], the loop then leaves
    every counter as it is, and (with case numbers all different in the
    country) the counters are those of the data without the undetermined
    rows; a classified respondent yields the flag and the two scores. *)
Theorem classifier_excludes_undetermined :
  (forall v, religious_of v = Some false <->
             v = Str "not at all important" \/ v = Str "not important") /\
  (forall v, religious_of v = Some true <->
             v = Str "quite important" \/ v = Str "very important") /\
  religious_of (Str "don't know") = None /\
  religious_of NoneV = None /\
  (forall df cn r,
      first_with_caseno df cn = Some r ->
      process_participant df cn =
        Ok (match religious_of (v6 r) with
            | Some religious => Some (religious, a_adp r, a_div r)
            | None => None
            end)) /\
  (forall df st r,
      process_participant df (caseno r) = Ok None ->
      loop_body df st r = Ok st) /\
  (forall data country,
      NoDup (map caseno (country_rows data country)) ->
      country_counters data country =
        country_counters (filter is_classified data) country).
Proof.
  split; [intros v; apply religious_of_cases|].
  split; [intros v; apply religious_of_cases|].
  split; [reflexivity|]. split; [reflexivity|].
  split; [|split].
  - intros df cn r Hfirst. rewrite process_participant_first, Hfirst.
    reflexivity.
  - intros df st r Hnone. unfold loop_body. now rewrite Hnone.
  - intros data country Hnd.
    rewrite !country_counters_summary.
    rewrite rows_read_unique by exact Hnd.
    assert (Hrows : country_rows (filter is_classified data) country =
                    filter is_classified (country_rows data country))
      by apply filter_comm.
    rewrite rows_read_unique
      by (rewrite Hrows; now apply NoDup_caseno_filter).
    now rewrite Hrows, summary_classified.
Qed.

(** C5 on the Spanish sample: the third respondent does not count. *)
Lemma classifier_excludes_undetermined_witness :
  process_participant ES_data 3 = Ok None /\
  process_participant ES_data 1 = Ok (Some (true, Some 0.5%float, Some (-1)%float)) /\
  country_counters ES_data "ES" = country_counters (firstn 2 ES_data) "ES".
Proof.
  destruct classifier_excludes_undetermined
    as (_ & _ & _ & _ & Hfirst & _ & Hdrop).
  split; [|split].
  - apply (Hfirst ES_data 3 (nth 2 ES_data (mkRow "" 0 NoneV NoneV NoneV))).
    reflexivity.
  - apply (Hfirst ES_data 1 (nth 0 ES_data (mkRow "" 0 NoneV NoneV NoneV))).
    reflexivity.
  - apply (Hdrop ES_data "ES").
    repeat constructor; simpl; intuition discriminate.
Defined.

(** C6. The two counts of a country count the classified respondents,
    whatever their scores: their sum is at most the number of rows of the
    country, and equals it exactly when no row is excluded (the classifier
    returns [None] for none of them); with case numbers all different,
    exactly when no row has an undetermined religiosity.  A returned record
    carries the two counts. *)
Theorem counts_at_most_rows (data : dataframe) (country : string) :
  let df := country_rows data country in
  let rows := rows_read data country in
  exists st,
    country_counters data country = Ok st /\
    n_religious st = count is_religious rows /\
    n_nonreligious st = count is_nonreligious rows /\
    n_religious st + n_nonreligious st <= Z.of_nat (List.length df) /\
    (n_religious st + n_nonreligious st = Z.of_nat (List.length df) <->
     forall r, In r df -> process_participant df (caseno r) <> Ok None) /\
    (NoDup (map caseno df) ->
     (n_religious st + n_nonreligious st = Z.of_nat (List.length df) <->
      forall r, In r df -> religious_of (v6 r) <> None)) /\
    (forall d, process_country data country = Ok d ->
               dict_get d "rel" = Ok (NInt (n_religious st)) /\
               dict_get d "nonrel" = Ok (NInt (n_nonreligious st))).
Proof.
  intros df rows. exists (summary rows).
  assert (Hlen : List.length rows = List.length df)
    by (unfold rows, rows_read; apply length_map).
  assert (Hfull : count is_religious rows + count is_nonreligious rows
                  = Z.of_nat (List.length df) <->
                  forall r, In r df -> is_classified (answers_used df r) = true).
  { rewrite count_groups, <- Hlen, count_full. unfold rows, rows_read.
    fold df. split.
    - intros H r Hr. apply H. now apply in_map.
    - intros H r Hr. apply in_map_iff in Hr. destruct Hr as [x [<- Hx]].
      now apply H. }
  split; [apply country_counters_summary|].
  split; [reflexivity|]. split; [reflexivity|].
  cbn [summary n_religious n_nonreligious].
  split; [|split; [|split]].
  - rewrite count_groups, <- Hlen. apply count_le_length.
  - rewrite Hfull. split; intros H r Hr.
    + rewrite process_participant_read by exact Hr.
      intros Hnone. injection Hnone as Hnone.
      apply participant_none_classified in Hnone.
      rewrite (H r Hr) in Hnone. discriminate.
    + specialize (H r Hr). rewrite process_participant_read in H by exact Hr.
      destruct (is_classified (answers_used df r)) eqn:Hc; [reflexivity|].
      apply participant_none_classified in Hc. congruence.
  - intros Hnd. rewrite Hfull. split; intros H r Hr.
    + specialize (H r Hr). rewrite answers_used_self in H by assumption.
      unfold is_classified in H. intros Hnone. now rewrite Hnone in H.
    + rewrite answers_used_self by assumption.
      specialize (H r Hr). unfold is_classified.
      now destruct (religious_of (v6 r)).
  - intros d Hd. rewrite process_country_means in Hd. cbv zeta in Hd.
    fold rows in Hd.
    destruct (mean _) as [m1|]; [|discriminate].
    destruct (mean _) as [m2|]; [|discriminate].
    destruct (mean _) as [m3|]; [|discriminate].
    destruct (mean _) as [m4|]; [|discriminate].
    injection Hd as <-. split; reflexivity.
Qed.

(** C6 on the two samples: two of three rows counted in Spain, all three in
    France, where a record is returned. *)
Lemma counts_at_most_rows_witness :
  (exists st, country_counters ES_data "ES" = Ok st /\
              n_religious st + n_nonreligious st = 2) /\
  (exists st d, country_counters FR_data "FR" = Ok st /\
                n_religious st + n_nonreligious st = 3 /\
                process_country FR_data "FR" = Ok d /\
                dict_get d "rel" = Ok (NInt (n_religious st))).
Proof.
  split.
  - destruct (counts_at_most_rows ES_data "ES")
      as (st & Hst & Hrel & Hnon & _).
    exists st. split; [exact Hst|]. rewrite Hrel, Hnon. reflexivity.
  - destruct (counts_at_most_rows FR_data "FR")
      as (st & Hst & Hrel & Hnon & _ & _ & Hnd & Hrec).
    eexists st, _. split; [exact Hst|].
    split; [rewrite Hrel, Hnon; reflexivity|].
    split; [reflexivity|].
    apply Hrec. reflexivity.
Defined.

(** C9. The classifier takes row 0 of the rows with the given case number
    and does not test that there is one: it raises IndexError exactly when
    no row carries the case number (it does not return [None] then), and
    returns exactly when some row does. *)
Theorem process_participant_unknown_caseno (df : dataframe) (cn : Z) :
  (~ In cn (map caseno df) <-> process_participant df cn = Raise IndexError) /\
  (In cn (map caseno df) <->
   exists r, hd_error (filter (fun x => caseno x =? cn) df) = Some r /\
             process_participant df cn = Ok (participant_of_row r)).
Proof.
  rewrite process_participant_first.
  rewrite <- filter_head_find. fold (first_with_caseno df cn).
  destruct (first_with_caseno df cn) as [r|] eqn:Hfirst.
  - destruct (first_with_caseno_some df cn r Hfirst) as [Hin Hcn].
    assert (Hmem : In cn (map caseno df))
      by (rewrite <- Hcn; now apply in_map).
    split; split; try discriminate; try tauto.
    intros _. exists r. auto.
  - apply first_with_caseno_none in Hfirst.
    split; split; try tauto.
    intros [r [Hr _]]. discriminate.
Qed.

(** C10. At each row the loop reads the first row of the country with the
    same case number: the counters are the per-row aggregation of these
    first rows, one for each occurrence, and the answers of a later row
    under a case number already met are never read.  With case numbers all
    different within the country this is the per-row aggregation of the
    rows themselves; with a repeated case number it need not be. *)
Theorem duplicate_caseno_reads_first_row :
  (forall data country,
      let df := country_rows data country in
      country_counters data country =
        aggregate_rows (map (answers_used df) df)) /\
  (forall df before r after,
      df = (before ++ r :: after)%list ->
      ~ In (caseno r) (map caseno before) ->
      forall r', In r' (r :: after) -> caseno r' = caseno r ->
                 process_participant df (caseno r') =
                   Ok (participant_of_row r) /\
                 answers_used df r' = r) /\
  (forall data country,
      NoDup (map caseno (country_rows data country)) ->
      country_counters data country =
        aggregate_rows (country_rows data country)) /\
  (country_counters twin_data "PT"
     = aggregate_rows (map (fun _ => hd (mkRow "" 0 NoneV NoneV NoneV) twin_data)
                           twin_data) /\
   exists st st',
     country_counters twin_data "PT" = Ok st /\
     aggregate_rows (country_rows twin_data "PT") = Ok st' /\
     n_religious st = 2 /\ n_nonreligious st = 0 /\
     n_religious st' = 1 /\ n_nonreligious st' = 1).
Proof.
  split; [|split; [|split]].
  - intros data country df.
    rewrite country_counters_summary, aggregate_rows_summary. reflexivity.
  - intros df before r after -> Hfresh r' Hin Hcn.
    assert (Hfirst : first_with_caseno (before ++ r :: after) (caseno r')
                     = Some r).
    { rewrite Hcn. unfold first_with_caseno.
      clear Hin Hcn. induction before as [|b before IH]; simpl.
      - now rewrite Z.eqb_refl.
      - destruct (Z.eqb_spec (caseno b) (caseno r)) as [Heq|Hne].
        + destruct Hfresh. left. exact Heq.
        + apply IH. intros H. apply Hfresh. now right. }
    split.
    + rewrite process_participant_first, Hfirst. reflexivity.
    + unfold answers_used. now rewrite Hfirst.
  - intros data country Hnd.
    rewrite country_counters_summary, aggregate_rows_summary.
    now rewrite rows_read_unique.
  - split; [reflexivity|].
    eexists _, _. repeat split; reflexivity.
Qed.

(** C10 on the twins and on the Spanish sample. *)
Lemma duplicate_caseno_reads_first_row_witness :
  process_participant twin_data 7 =
    Ok (participant_of_row (hd (mkRow "" 0 NoneV NoneV NoneV) twin_data)) /\
  country_counters ES_data "ES" = aggregate_rows (country_rows ES_data "ES").
Proof.
  destruct duplicate_caseno_reads_first_row as (_ & Hfirst & Huniq & _).
  split.
  - apply (Hfirst twin_data [] _ _ eq_refl (fun H => H)
             (nth 1 twin_data (mkRow "" 0 NoneV NoneV NoneV))).
    + right. left. reflexivity.
    + reflexivity.
  - apply Huniq. repeat constructor; simpl; intuition discriminate.
Defined.

(** C7, as the code has it.  On the Spanish sample, whatever the third
    respondent answers on adoption and divorce, the loop ends with rel = 1
    and nonrel = 1, one adoption score 0.5 and one divorce score -1 in the
    religious group, one divorce score (5 - 5.5) / 4.5 and no adoption
    score in the non-religious group; the means of the three non-empty
    lists are 0.5, -1 and (5 - 5.5) / 4.5, the division for a_adp_nonrel
    is 0 / 0 and [process_country] raises ZeroDivisionError. *)
Theorem ES_scenario (adp3 div3 : value) :
  let data :=
    [ mkRow "ES" 1 (Str "very important") (Str "agree") (Str "never");
      mkRow "ES" 2 (Str "not important") NoneV (Float 5);
      mkRow "ES" 3 (Str "don't know") adp3 div3 ] in
  let a_div_5 := ((5 - 5.5) / 4.5)%float in
  exists st,
    country_counters data "ES" = Ok st /\
    st = mkCounters 1 1 1 0 1 1
           (NFloat 0.5) (NInt 0) (NFloat (-1)) (NFloat a_div_5) /\
    truediv (sum_a_adp_rel st) (NInt (n_rel_adp st)) = Ok 0.5%float /\
    truediv (sum_a_adp_nonrel st) (NInt (n_nonrel_adp st))
      = Raise ZeroDivisionError /\
    truediv (sum_a_div_rel st) (NInt (n_rel_div st)) = Ok (-1)%float /\
    truediv (sum_a_div_nonrel st) (NInt (n_nonrel_div st)) = Ok a_div_5 /\
    process_country data "ES" = Raise ZeroDivisionError.
Proof.
  intros data a_div_5.
  assert (Hst : country_counters data "ES" =
                Ok (mkCounters 1 1 1 0 1 1
                      (NFloat 0.5) (NInt 0) (NFloat (-1)) (NFloat a_div_5)))
    by (rewrite country_counters_summary; reflexivity).
  eexists. split; [exact Hst|].
  repeat (split; [reflexivity|]).
  unfold process_country. rewrite Hst. reflexivity.
Qed.

(** C7 as stated fails: no record comes back for the
    Spanish sample, so none with a missing a_adp_nonrel. *)
Lemma ES_scenario_no_record :
  process_country ES_data "ES" = Raise ZeroDivisionError /\
  ~ (exists d, process_country ES_data "ES" = Ok d /\
               dict_get d "rel" = Ok (NInt 1)).
Proof.
  assert (H : process_country ES_data "ES" = Raise ZeroDivisionError)
    by reflexivity.
  split; [exact H|].
  intros [d [Hd _]]. rewrite H in Hd. discriminate.
Qed.

(** * The driver *)

(** ** The countries in order of first appearance *)

Lemma filter_filter_and {A} (p q : A -> bool) (l : list A) :
  filter p (filter q l) = filter (fun x => q x && p x) l.
Proof.
  induction l as [|x l IH]; simpl; [reflexivity|].
  destruct (q x); simpl; [destruct (p x)|]; now rewrite IH.
Qed.

Lemma unique_from_first_seen (seen l : list string) :
  unique_from seen l =
    filter (fun y => negb (existsb (String.eqb y) seen)) (first_seen l).
Proof.
  revert seen. induction l as [|x l IH]; intros seen; simpl; [reflexivity|].
  destruct (existsb (String.eqb x) seen) eqn:Hseen; simpl.
  - rewrite IH. symmetry. apply filter_filter_sub.
    intros y Hy. destruct (String.eqb_spec y x) as [->|]; [|reflexivity].
    rewrite Hseen in Hy. discriminate.
  - rewrite IH. f_equal. rewrite filter_filter_and.
    apply filter_ext. intros y. simpl. now rewrite negb_orb.
Qed.

Lemma unique_first_seen (l : list string) : unique l = first_seen l.
Proof.
  unfold unique. rewrite unique_from_first_seen. apply filter_true.
Qed.

Lemma first_seen_In (l : list string) (x : string) :
  In x (first_seen l) <-> In x l.
Proof.
  induction l as [|y l IH]; simpl; [tauto|].
  rewrite filter_In, IH.
  destruct (String.eqb_spec x y) as [->|Hne]; simpl.
  - tauto.
  - split; [tauto|]. intros [->|H]; [congruence | tauto].
Qed.

Lemma first_seen_NoDup (l : list string) : NoDup (first_seen l).
Proof.
  induction l as [|y l IH]; simpl; constructor.
  - rewrite filter_In. intros [_ H]. now rewrite String.eqb_refl in H.
  - now apply NoDup_filter.
Qed.

(** ** Dictionaries filled key by key *)

Lemma dict_update_fresh {V} (d : dict V) (k : string) (v : V) :
  ~ In k (keys d) -> dict_update d k v = d ++ [(k, v)].
Proof.
  induction d as [|[k' v'] d IH]; simpl; intros Hfresh; [reflexivity|].
  destruct (String.eqb_spec k' k) as [->|Hne]; [tauto|].
  rewrite IH by tauto. reflexivity.
Qed.

Lemma dict_get_app_fresh {V} (d1 d2 : dict V) (k : string) :
  ~ In k (keys d1) -> dict_get (d1 ++ d2) k = dict_get d2 k.
Proof.
  unfold dict_get. induction d1 as [|[k' v'] d1 IH]; simpl; intros Hfresh;
    [reflexivity|].
  destruct (String.eqb_spec k' k) as [->|Hne]; [tauto|].
  apply IH. tauto.
Qed.

Lemma dict_get_head {V} (d : dict V) (k : string) (v : V) :
  dict_get ((k, v) :: d) k = Ok v.
Proof.
  unfold dict_get. simpl. now rewrite String.eqb_refl.
Qed.

(** Reading a dictionary of distinct keys key by key gives its values. *)
Lemma mapM_dict_get {V B} (f : string -> V -> result B)
    (pre d : dict V) :
  NoDup (keys (pre ++ d)) ->
  mapM (fun k => v <- dict_get (pre ++ d) k ;; f k v) (keys d) =
    mapM (fun kv => f (fst kv) (snd kv)) d.
Proof.
  revert pre. induction d as [|[k v] d IH]; intros pre Hnd; [reflexivity|].
  cbn [keys map fst mapM].
  assert (Hfresh : ~ In k (keys pre)).
  { unfold keys in *. rewrite map_app in Hnd. simpl in Hnd.
    apply NoDup_remove_2 in Hnd. intros H. apply Hnd.
    apply in_or_app. now left. }
  rewrite dict_get_app_fresh by exact Hfresh.
  rewrite dict_get_head. cbn [bind fst snd].
  destruct (f k v) as [y|e]; [|reflexivity]. cbn [bind].
  specialize (IH (pre ++ [(k, v)])).
  rewrite <- app_assoc in IH. simpl in IH.
  fold (keys d). rewrite IH by exact Hnd. reflexivity.
Qed.

Lemma keys_combine {V} (ks : list string) (vs : list V) :
  List.length ks = List.length vs -> keys (combine ks vs) = ks.
Proof.
  revert vs. induction ks as [|k ks IH]; intros [|v vs] Hlen; simpl in *;
    try discriminate; [reflexivity|].
  f_equal. apply IH. now injection Hlen.
Qed.

Lemma mapM_length {A B} (f : A -> result B) (l : list A) (ys : list B) :
  mapM f l = Ok ys -> List.length ys = List.length l.
Proof.
  revert ys. induction l as [|x l IH]; simpl; intros ys H.
  - now injection H as <-.
  - destruct (f x) as [y|]; [|discriminate]. simpl in H.
    destruct (mapM f l) as [ys'|]; [|discriminate]. simpl in H.
    injection H as <-. simpl. f_equal. now apply IH.
Qed.

Lemma mapM_Forall2 {A B} (f : A -> result B) (l : list A) (ys : list B) :
  mapM f l = Ok ys <-> Forall2 (fun x y => f x = Ok y) l ys.
Proof.
  revert ys. induction l as [|x l IH]; simpl; intros ys.
  - split; [intros H; injection H as <-; constructor|].
    intros H. now inversion H.
  - split.
    + intros H. destruct (f x) as [y|] eqn:Hy; [|discriminate]. simpl in H.
      destruct (mapM f l) as [ys'|]; [|discriminate]. simpl in H.
      injection H as <-. constructor; [exact Hy | now apply IH].
    + intros H. inversion H as [|? y ? ys' Hy Hrest]; subst.
      rewrite Hy. simpl. apply IH in Hrest. now rewrite Hrest.
Qed.

Lemma dict_get_in {V} (d : dict V) (k : string) (v : V) :
  NoDup (keys d) -> In (k, v) d -> dict_get d k = Ok v.
Proof.
  induction d as [|[k' v'] d IH]; simpl; intros Hnd Hin; [destruct Hin|].
  inversion Hnd as [|? ? Hfresh Hnd']; subst.
  destruct Hin as [Heq|Hin].
  - injection Heq as -> ->. apply dict_get_head.
  - change ((k', v') :: d) with ([(k', v')] ++ d).
    rewrite dict_get_app_fresh; [now apply IH|].
    simpl. intros [->|[]]. apply Hfresh.
    change k with (fst (k, v)). now apply in_map.
Qed.

Lemma mapM_ok {A B} (f : A -> result B) (g : A -> B) (l : list A) :
  (forall x, In x l -> f x = Ok (g x)) -> mapM f l = Ok (map g l).
Proof.
  induction l as [|x l IH]; simpl; intros H; [reflexivity|].
  rewrite (H x) by now left. simpl.
  rewrite IH by (intros y Hy; apply H; now right). reflexivity.
Qed.

Lemma loop_variable_last (cs : list string) (before : option string) :
  loop_variable cs before =
    match cs with
    | [] => before
    | _ :: _ => Some (last cs "")
    end.
Proof.
  unfold loop_variable. revert before.
  induction cs as [|c cs IH]; intros before; [reflexivity|].
  simpl fold_left. rewrite IH. destruct cs; reflexivity.
Qed.

(** The first loop of the driver, over keys all different. *)
Lemma fill_dictionary {V} (f : string -> result V) (cs : list string)
    (d0 : dict V) (before : option string) :
  NoDup cs -> (forall c, In c cs -> ~ In c (keys d0)) ->
  foldM (fun (st : dict V * option string) c =>
           v <- f c ;; Ok (dict_update (fst st) c v, Some c))
        (d0, before) cs =
    (vs <- mapM f cs ;; Ok (d0 ++ combine cs vs, loop_variable cs before)).
Proof.
  revert d0 before.
  induction cs as [|c cs IH]; intros d0 before Hnd Hfresh; simpl.
  - now rewrite app_nil_r.
  - inversion Hnd as [|? ? Hc Hnd']; subst.
    destruct (f c) as [v|e]; [|reflexivity]. cbn [bind fst].
    rewrite dict_update_fresh by (apply Hfresh; now left).
    rewrite IH; [|exact Hnd'|].
    + destruct (mapM f cs) as [vs|e]; [|reflexivity]. cbn [bind combine].
      now rewrite <- app_assoc.
    + intros c' Hc' Hin. unfold keys in Hin. rewrite map_app in Hin.
      apply in_app_or in Hin. destruct Hin as [Hin|Hin].
      * apply (Hfresh c'); [now right | exact Hin].
      * simpl in Hin. destruct Hin as [<-|[]]. contradiction.
Qed.

(** ** The table *)

Lemma process_country_keys (data : dataframe) (country : string)
    (d : dict num) :
  process_country data country = Ok d -> keys d = record_keys.
Proof.
  unfold process_country. intros H.
  destruct (country_counters data country) as [st|]; [|discriminate].
  cbn [bind] in H.
  destruct (truediv _ _) as [m1|]; [|discriminate]. cbn [bind] in H.
  destruct (truediv _ _) as [m2|]; [|discriminate]. cbn [bind] in H.
  destruct (truediv _ _) as [m3|]; [|discriminate]. cbn [bind] in H.
  destruct (truediv _ _) as [m4|]; [|discriminate]. cbn [bind] in H.
  injection H as <-. reflexivity.
Qed.

Lemma record_keys_NoDup : NoDup record_keys.
Proof.
  unfold record_keys. repeat constructor; simpl; intuition discriminate.
Qed.

Lemma mapM_ext {A B} (f g : A -> result B) (l : list A) :
  (forall x, In x l -> f x = g x) -> mapM f l = mapM g l.
Proof.
  induction l as [|x l IH]; simpl; intros H; [reflexivity|].
  rewrite (H x) by now left.
  rewrite IH by (intros y Hy; apply H; now right). reflexivity.
Qed.

Lemma mapM_dict_get_all {V B} (f : string -> V -> result B) (d : dict V) :
  NoDup (keys d) ->
  mapM (fun k => v <- dict_get d k ;; f k v) (keys d) =
    mapM (fun kv => f (fst kv) (snd kv)) d.
Proof.
  exact (mapM_dict_get f [] d).
Qed.

(** The second and third loops: one row for each entry of the dictionary. *)
Lemma table_rows (dictionary : dict (dict num)) :
  NoDup (keys dictionary) ->
  (forall c d, In (c, d) dictionary -> keys d = record_keys) ->
  mapM (fun country =>
          d <- dict_get dictionary country ;;
          items <- mapM (fun item =>
                           d' <- dict_get dictionary country ;;
                           x <- dict_get d' item ;;
                           Ok (CNum x))
                        (keys d) ;;
          Ok (CStr country :: items))
       (keys dictionary) =
    Ok (map (fun kv => csv_row (fst kv) (snd kv)) dictionary).
Proof.
  intros Hnd Hkeys.
  rewrite (mapM_dict_get_all
             (fun country d =>
                items <- mapM (fun item =>
                                 d' <- dict_get dictionary country ;;
                                 x <- dict_get d' item ;;
                                 Ok (CNum x))
                              (keys d) ;;
                Ok (CStr country :: items)) dictionary Hnd).
  apply mapM_ok. intros [c d] Hin. cbn [fst snd].
  rewrite (mapM_ext _ (fun item => x <- dict_get d item ;; Ok (CNum x)))
    by (intros item _; now rewrite (dict_get_in dictionary c d Hnd Hin)).
  rewrite (mapM_dict_get_all (fun _ x => Ok (CNum x)) d)
    by (rewrite (Hkeys c d Hin); apply record_keys_NoDup).
  rewrite (mapM_ok _ (fun kv => CNum (snd kv))) by reflexivity.
  reflexivity.
Qed.

Lemma Forall2_combine_in {A B} (R : A -> B -> Prop) (l1 : list A)
    (l2 : list B) (x : A) (y : B) :
  Forall2 R l1 l2 -> In (x, y) (combine l1 l2) -> R x y.
Proof.
  intros H. induction H as [|a b l1 l2 Hab _ IH]; simpl; [tauto|].
  intros [Heq|Hin]; [injection Heq as <- <-; exact Hab | auto].
Qed.

Lemma combine_In_left {A B} (l1 : list A) (l2 : list B) (x : A) :
  List.length l1 = List.length l2 -> In x l1 ->
  exists y, In (x, y) (combine l1 l2).
Proof.
  revert l2. induction l1 as [|a l1 IH]; intros [|b l2] Hlen Hin;
    simpl in *; try discriminate; [destruct Hin|].
  destruct Hin as [->|Hin]; [eauto|].
  destruct (IH l2) as [y Hy]; [now injection Hlen | exact Hin | eauto].
Qed.

Lemma unique_NoDup (l : list string) : NoDup (unique l).
Proof.
  rewrite unique_first_seen. apply first_seen_NoDup.
Qed.

(** The driver in closed form. *)
Lemma main_closed_form (df : dataframe) :
  main df =
    (records <- mapM (process_country df) (unique (map c_abrv df)) ;;
     match unique (map c_abrv df) with
     | [] => Raise NameError
     | _ :: _ =>
         Ok (header ::
             map (fun kv => csv_row (fst kv) (snd kv))
                 (combine (unique (map c_abrv df)) records))
     end).
Proof.
  unfold main.
  pose proof (unique_NoDup (map c_abrv df)) as Hnd.
  set (cs := unique (map c_abrv df)) in *.
  change (@pair (list (string * dict num)) (option string) [] None)
    with (@pair (dict (dict num)) (option string) [] None).
  rewrite (fill_dictionary (process_country df) cs [] None Hnd)
    by (intros c _ []).
  destruct (mapM (process_country df) cs) as [records|e] eqn:Hrecords;
    [|reflexivity].
  cbn [bind fst snd app]. rewrite loop_variable_last.
  destruct cs as [|c0 cs0] eqn:Hcs; [reflexivity|]. rewrite <- Hcs in *.
  cbn [bind].
  pose proof (mapM_length _ _ _ Hrecords) as Hlen. symmetry in Hlen.
  pose proof (proj1 (mapM_Forall2 _ _ _) Hrecords) as Hall.
  assert (Hkeys : forall c d, In (c, d) (combine cs records) ->
                              keys d = record_keys).
  { intros c d Hin.
    apply (process_country_keys df c).
    exact (Forall2_combine_in _ _ _ _ _ Hall Hin). }
  assert (Hnd' : NoDup (keys (combine cs records)))
    by (rewrite keys_combine by exact Hlen; exact Hnd).
  assert (Hlast : In (last cs "") cs).
  { rewrite Hcs. clear. revert c0.
    induction cs0 as [|c1 cs0 IH]; intros c0; [now left|].
    right. apply (IH c1). }
  destruct (combine_In_left cs records _ Hlen Hlast) as [d Hd].
  rewrite (dict_get_in _ _ _ Hnd' Hd). cbn [bind].
  rewrite (Hkeys _ _ Hd).
  rewrite (table_rows _ Hnd' Hkeys). reflexivity.
Qed.

(** C8, as the code has it.  The driver goes through the distinct country
    codes in the order of their first appearance.  When [process_country]
    returns a record for each of them (and there is at least one), the
    table handed to the CSV writer is the header country, rel, nonrel,
    a_adp_rel, a_adp_nonrel, a_div_rel, a_div_nonrel followed by one row
    for each distinct country, in that order, holding the code and the
    values of the record of the country, whose keys are those of the header
    in the same order.  When [process_country] raises for a country, the
    driver raises the first such exception and there is no table. *)
Theorem main_table (df : dataframe) :
  let countries := unique (map c_abrv df) in
  countries = first_seen (map c_abrv df) /\
  NoDup countries /\
  (forall c, In c countries <-> In c (map c_abrv df)) /\
  (forall records,
      Forall2 (fun c d => process_country df c = Ok d) countries records ->
      countries <> [] ->
      main df = Ok (header ::
                    map (fun kv => csv_row (fst kv) (snd kv))
                        (combine countries records)) /\
      List.length records = List.length countries /\
      Forall (fun d => map CStr ("country" :: keys d) = header) records) /\
  (forall e,
      mapM (process_country df) countries = Raise e -> main df = Raise e).
Proof.
  intros countries.
  split; [apply unique_first_seen|].
  split; [apply unique_NoDup|].
  split; [intros c; unfold countries; rewrite unique_first_seen;
          apply first_seen_In|].
  split.
  - intros records Hall Hne.
    pose proof (proj2 (mapM_Forall2 _ _ _) Hall) as Hrecords.
    split; [|split].
    + rewrite main_closed_form. fold countries. rewrite Hrecords. cbn [bind].
      destruct countries; [congruence | reflexivity].
    + now apply mapM_length in Hrecords.
    + clear Hrecords Hne.
      induction Hall as [|c d cs ds Hcd _ IH]; constructor.
      * unfold header. now rewrite (process_country_keys df c d Hcd).
      * exact IH.
  - intros e He. rewrite main_closed_form. fold countries. now rewrite He.
Qed.

(** C8 on two countries. *)
Lemma main_table_witness :
  main two_countries =
    Ok [ header;
         [ CStr "FR"; CNum (NInt 1); CNum (NInt 1);
           CNum (NFloat (-0.5)); CNum (NFloat 1);
           CNum (NFloat ((3 - 5.5) / 4.5)); CNum (NFloat 1) ];
         [ CStr "ES"; CNum (NInt 1); CNum (NInt 1);
           CNum (NFloat 0.5); CNum (NFloat 0);
           CNum (NFloat (-1)); CNum (NFloat ((5 - 5.5) / 4.5)) ] ].
Proof.
  refine (proj1 (proj1 (proj2 (proj2 (proj2 (main_table two_countries))))
            [ [ ("rel", NInt 1); ("nonrel", NInt 1);
                ("a_adp_rel", NFloat (-0.5)); ("a_adp_nonrel", NFloat 1);
                ("a_div_rel", NFloat ((3 - 5.5) / 4.5));
                ("a_div_nonrel", NFloat 1) ];
              [ ("rel", NInt 1); ("nonrel", NInt 1);
                ("a_adp_rel", NFloat 0.5); ("a_adp_nonrel", NFloat 0);
                ("a_div_rel", NFloat (-1));
                ("a_div_nonrel", NFloat ((5 - 5.5) / 4.5)) ] ]
            _ _)).
  - repeat constructor.
  - discriminate.
Defined.

(** C8 as stated fails: on the Spanish sample the
    aggregate of the only country raises and the driver has no table. *)
Lemma main_no_table :
  main ES_data = Raise ZeroDivisionError /\
  ~ (exists table, main ES_data = Ok table).
Proof.
  assert (H : main ES_data = Raise ZeroDivisionError) by reflexivity.
  split; [exact H|].
  intros [table Ht]. rewrite H in Ht. discriminate.
Qed.

(** With no row at all the first loop never binds its variable, and the
    header is asked of an unbound name. *)
Example main_empty : main [] = Raise NameError.
Proof. reflexivity. Qed.

(** * Further properties of the score mappers *)

Lemma a_div_divorce_int (element : row) :
  a_div element =
    match divorce_int (v155 element) with
    | Ok z =>
        if Z.abs z <? float_max_int
        then Some ((float_of_Z z - 5.5) / 4.5)%float
        else None
    | Raise _ => None
    end.
Proof.
  unfold a_div, divorce_int.
  destruct (if eq_str (v155 element) "never" then Ok 1
            else if eq_str (v155 element) "always" then Ok 10
            else Py.int (v155 element)) as [z|e]; [|reflexivity].
  cbn [bind sub to_float]. unfold float_of_int.
  destruct (Z.abs z <? float_max_int); reflexivity.
Qed.

Lemma divorce_int_of_int (answer : value) (z : Z) :
  Py.int answer = Ok z -> divorce_int answer = Ok z.
Proof.
  intros Hint. unfold divorce_int.
  destruct (int_endpoints_raise _ _ Hint) as [-> ->]. exact Hint.
Qed.

(** X1. The divorce mapper returns "missing" exactly when the answer is
    neither "never" nor "always" and either [int] raises on it (a label, a
    missing value, NaN, an infinity) or the integer is too large for a
    float (2^1024 - 2^970 or more in absolute value). *)
Theorem a_div_missing (element : row) :
  a_div element = None <->
  eq_str (v155 element) "never" = false /\
  eq_str (v155 element) "always" = false /\
  ((exists e, Py.int (v155 element) = Raise e) \/
   (exists z, Py.int (v155 element) = Ok z /\ float_max_int <= Z.abs z)).
Proof.
  rewrite a_div_divorce_int. unfold divorce_int.
  destruct (eq_str (v155 element) "never");
    [split; [discriminate | intros (H & _); discriminate]|].
  destruct (eq_str (v155 element) "always");
    [split; [discriminate | intros (_ & H & _); discriminate]|].
  destruct (Py.int (v155 element)) as [z|e].
  - destruct (Z.ltb_spec (Z.abs z) float_max_int) as [Hlt|Hge].
    + split; [discriminate|].
      intros (_ & _ & [[e He] | [z' [Hz' Hbig]]]); [discriminate|].
      injection Hz' as ->. lia.
    + split; [|reflexivity]. intros _. repeat split. right. eauto.
  - split; [|reflexivity]. intros _. repeat split. left. eauto.
Qed.

(** X2. The divorce score depends on the answer only through the integer
    [int] makes of it: a label of digits, an int and a float that truncates
    to the same integer score alike, "never" scores as 1 and "always" as
    10. *)
Theorem a_div_same_integer :
  (forall e1 e2 z,
      Py.int (v155 e1) = Ok z -> Py.int (v155 e2) = Ok z ->
      a_div e1 = a_div e2) /\
  (forall e c n r a,
      Py.int (v155 e) = Ok 1 ->
      a_div e = a_div (mkRow c n r a (Str "never"))) /\
  (forall e c n r a,
      Py.int (v155 e) = Ok 10 ->
      a_div e = a_div (mkRow c n r a (Str "always"))).
Proof.
  split; [|split].
  - intros e1 e2 z H1 H2. rewrite !a_div_divorce_int.
    now rewrite (divorce_int_of_int _ _ H1), (divorce_int_of_int _ _ H2).
  - intros e c n r a H. rewrite !a_div_divorce_int.
    now rewrite (divorce_int_of_int _ _ H).
  - intros e c n r a H. rewrite !a_div_divorce_int.
    now rewrite (divorce_int_of_int _ _ H).
Qed.

Lemma a_div_same_integer_witness :
  a_div (mkRow "ES" 1 NoneV NoneV (Str " 7 "))
    = a_div (mkRow "FR" 2 NoneV NoneV (Float 7.5)) /\
  a_div (mkRow "ES" 1 NoneV NoneV (Float 1))
    = a_div (mkRow "ES" 1 NoneV NoneV (Str "never")).
Proof.
  destruct a_div_same_integer as (Hsame & Hnever & _).
  split.
  - apply (Hsame _ _ 7); reflexivity.
  - apply Hnever. reflexivity.
Defined.

Ltac scale_cases v :=
  let H := fresh "Hcases" in
  assert (H : v = 1 \/ v = 2 \/ v = 3 \/ v = 4 \/ v = 5 \/
              v = 6 \/ v = 7 \/ v = 8 \/ v = 9 \/ v = 10) by lia;
  repeat (destruct H as [-> | H]); [ .. | subst v ].

(** X3. On the scale 1..10 the divorce score is strictly increasing in the
    answer, is never 0, and the answers v and 11 - v have opposite
    scores. *)
Theorem a_div_scale_order (e1 e2 : row) (v w : Z) :
  Py.int (v155 e1) = Ok v -> Py.int (v155 e2) = Ok w ->
  1 <= v -> v < w -> w <= 10 ->
  exists x y,
    a_div e1 = Some x /\ a_div e2 = Some y /\
    (x <? y)%float = true /\
    (x =? 0)%float = false /\ (y =? 0)%float = false /\
    (v + w = 11 -> x = (- y)%float).
Proof.
  intros Hv Hw Hlo Hvw Hhi.
  assert (Hbig : 10 < float_max_int) by reflexivity.
  rewrite (a_div_of_int e1 v Hv) by lia.
  rewrite (a_div_of_int e2 w Hw) by lia.
  eexists _, _. split; [reflexivity|]. split; [reflexivity|].
  clear Hv Hw Hbig.
  scale_cases v; scale_cases w; try (exfalso; lia);
    (split; [reflexivity|]); (split; [reflexivity|]);
    (split; [reflexivity|]);
    first [ intros _; reflexivity | intros H; exfalso; lia ].
Qed.

Lemma a_div_scale_order_witness :
  exists x y,
    a_div (mkRow "ES" 1 NoneV NoneV (Str "3")) = Some x /\
    a_div (mkRow "ES" 2 NoneV NoneV (Float 8)) = Some y /\
    (x <? y)%float = true /\
    (x =? 0)%float = false /\ (y =? 0)%float = false /\
    (3 + 8 = 11 -> x = (- y)%float).
Proof.
  apply (a_div_scale_order _ _ 3 8); [reflexivity | reflexivity | lia..].
Defined.

(** Two float literals that differ. *)
Ltac float_discr H :=
  match type of H with
  | ?a = _ => apply (f_equal (PrimFloat.eqb a)) in H; vm_compute in H;
              discriminate H
  end.

Lemma dict_get_value_str {V} (d : dict V) (key : value) (v : V) :
  dict_get_value d key = Ok v ->
  exists s, key = Str s /\ dict_get d s = Ok v.
Proof.
  destruct key as [s| | |]; simpl; try discriminate. eauto.
Qed.

(** X4. The adoption score reverses the order of the ranks (a lower rank,
    that is more agreement, scores strictly higher), and the score tells
    the answer: two rows with the same score carry the same label. *)
Theorem a_adp_order_and_decode :
  (forall r r' k k',
      dict_get_value category_dic (v82 r) = Ok k ->
      dict_get_value category_dic (v82 r') = Ok k' ->
      k < k' ->
      exists x y,
        a_adp r = Some x /\ a_adp r' = Some y /\ (y <? x)%float = true) /\
  (forall r r' x,
      a_adp r = Some x -> a_adp r' = Some x -> v82 r = v82 r').
Proof.
  split.
  - intros r r' k k' Hk Hk' Hlt.
    destruct (dict_get_value_str _ _ _ Hk) as (s & Hs & Hget).
    destruct (dict_get_value_str _ _ _ Hk') as (s' & Hs' & Hget').
    destruct (category_dic_rank s k Hget) as [Hrange Hscore].
    destruct (category_dic_rank s' k' Hget') as [Hrange' Hscore'].
    rewrite (Hscore r Hs), (Hscore' r' Hs').
    eexists _, _. split; [reflexivity|]. split; [reflexivity|].
    assert (Hc : k = 1 \/ k = 2 \/ k = 3 \/ k = 4 \/ k = 5) by lia.
    assert (Hc' : k' = 1 \/ k' = 2 \/ k' = 3 \/ k' = 4 \/ k' = 5) by lia.
    clear - Hlt Hc Hc'.
    destruct Hc as [->|[->|[->|[->| ->]]]];
      destruct Hc' as [->|[->|[->|[->| ->]]]];
      first [ reflexivity | exfalso; lia ].
  - intros r r' x Hr Hr'.
    destruct (a_adp_some r x Hr) as [_ Hin].
    destruct (a_adp_some r' x Hr') as [_ Hin'].
    simpl in Hin, Hin'.
    repeat (destruct Hin as [Hin|Hin]); try contradiction;
      repeat (destruct Hin' as [Hin'|Hin']); try contradiction;
      symmetry in Hin, Hin';
      rewrite (a_adp_str r _ Hin) in Hr;
      rewrite (a_adp_str r' _ Hin') in Hr';
      cbn in Hr, Hr';
      try congruence;
      rewrite <- Hr' in Hr; injection Hr as Hr; float_discr Hr.
Qed.

Lemma a_adp_order_and_decode_witness :
  exists x y,
    a_adp (mkRow "ES" 1 NoneV (Str "agree") NoneV) = Some x /\
    a_adp (mkRow "ES" 2 NoneV (Str "disagree") NoneV) = Some y /\
    (y <? x)%float = true.
Proof.
  apply (proj1 a_adp_order_and_decode _ _ 2 4); [reflexivity | reflexivity | lia].
Defined.

(** X6. The adoption score, when there is one, always lies in [-1, 1], also
    as the classifier hands it on; the divorce score lies in [-1, 1] for
    every answer that converts to an integer of the scale 1..10. *)
Theorem scores_within_scale :
  (forall element x, a_adp element = Some x -> in_range (-1) 1 x) /\
  (forall df cn religious x div,
      process_participant df cn = Ok (Some (religious, Some x, div)) ->
      in_range (-1) 1 x) /\
  (forall element v,
      Py.int (v155 element) = Ok v -> 1 <= v <= 10 ->
      exists x, a_div element = Some x /\ in_range (-1) 1 x).
Proof.
  split; [exact a_adp_in_range|]. split; [|exact a_div_in_range].
  intros df cn religious x div H.
  rewrite process_participant_first in H.
  destruct (first_with_caseno df cn) as [r|]; [|discriminate].
  unfold participant_of_row in H.
  destruct (religious_of (v6 r)); [|discriminate].
  injection H as _ Hadp _. exact (a_adp_in_range r x Hadp).
Qed.

Lemma scores_within_scale_witness :
  in_range (-1) 1 0.5 /\
  exists x, a_div (mkRow "ES" 1 NoneV NoneV (Float 9.5)) = Some x /\
            in_range (-1) 1 x.
Proof.
  destruct scores_within_scale as (_ & Hpart & Hdiv).
  split.
  - apply (Hpart ES_data 1 true 0.5%float (Some (-1)%float)). reflexivity.
  - apply (Hdiv _ 9); [reflexivity | lia].
Defined.

(** * Further properties of the classifier *)

Lemma find_filter_same {A} (p : A -> bool) (l : list A) :
  find p (filter p l) = find p l.
Proof.
  induction l as [|x l IH]; simpl; [reflexivity|].
  destruct (p x) eqn:Hp; simpl; [now rewrite Hp | exact IH].
Qed.

Lemma find_app_found {A} (p : A -> bool) (l l' : list A) (x : A) :
  find p l = Some x -> find p (l ++ l') = Some x.
Proof.
  induction l as [|y l IH]; simpl; [discriminate|].
  destruct (p y); auto.
Qed.

Lemma find_app_none {A} (p : A -> bool) (l l' : list A) :
  find p l = None -> find p (l ++ l') = find p l'.
Proof.
  induction l as [|y l IH]; simpl; [reflexivity|].
  destruct (p y); [discriminate | auto].
Qed.

(** X5. The classifier looks at nothing but the rows under the case
    number it is given, and among them at the first: the other rows can be
    dropped, rows can be added after a dataframe that has the case number,
    and rows under other case numbers can be added in front. *)
Theorem process_participant_local :
  (forall df cn,
      process_participant (filter (fun r => caseno r =? cn) df) cn =
        process_participant df cn) /\
  (forall df extra cn,
      In cn (map caseno df) ->
      process_participant (df ++ extra) cn = process_participant df cn) /\
  (forall df extra cn,
      ~ In cn (map caseno extra) ->
      process_participant (extra ++ df) cn = process_participant df cn).
Proof.
  split; [|split].
  - intros df cn. rewrite !process_participant_first.
    unfold first_with_caseno. now rewrite find_filter_same.
  - intros df extra cn Hin. rewrite !process_participant_first.
    destruct (first_with_caseno df cn) as [r|] eqn:Hfirst.
    + unfold first_with_caseno in *.
      now rewrite (find_app_found _ _ extra _ Hfirst).
    + apply first_with_caseno_none in Hfirst. contradiction.
  - intros df extra cn Hnot. rewrite !process_participant_first.
    apply first_with_caseno_none in Hnot.
    unfold first_with_caseno in *. now rewrite (find_app_none _ _ df Hnot).
Qed.

Lemma process_participant_local_witness :
  process_participant (ES_data ++ twin_data) 2 = process_participant ES_data 2 /\
  process_participant (twin_data ++ ES_data) 2 = process_participant ES_data 2.
Proof.
  destruct process_participant_local as (_ & Hafter & Hbefore).
  split.
  - apply Hafter. simpl. tauto.
  - apply Hbefore. simpl. intros [H|[H|[]]]; discriminate.
Defined.

(** * Further properties of the aggregator *)

Lemma group_scores_le_count grp score (rows : list row) :
  size (group_scores grp score rows) <= count grp rows.
Proof.
  unfold size, count.
  induction rows as [|r rows IH]; [simpl; lia|].
  unfold group_scores in *. cbn [flat_map filter]. rewrite length_app.
  destruct (grp r); [destruct (score r)|]; cbn [List.length]; lia.
Qed.

Lemma running_sum_int (xs : list float) :
  (size xs = 0 <-> running_sum xs = NInt 0) /\
  (0 < size xs <-> exists f, running_sum xs = NFloat f).
Proof.
  unfold size. destruct xs as [|x xs]; simpl.
  - split; split; try reflexivity; try lia. intros [f H]. discriminate.
  - split; split; try lia; try discriminate. eauto.
Qed.

(** X7. What the loop of [process_country] keeps: it never raises, no
    counter is negative, the number of scores of a group is at most the
    number of its respondents, and a sum is still the int 0 exactly when
    its counter is 0 and a float otherwise. *)
Theorem country_counters_invariant (data : dataframe) (country : string) :
  exists st,
    country_counters data country = Ok st /\
    0 <= n_rel_adp st <= n_religious st /\
    0 <= n_rel_div st <= n_religious st /\
    0 <= n_nonrel_adp st <= n_nonreligious st /\
    0 <= n_nonrel_div st <= n_nonreligious st /\
    (n_rel_adp st = 0 <-> sum_a_adp_rel st = NInt 0) /\
    (n_nonrel_adp st = 0 <-> sum_a_adp_nonrel st = NInt 0) /\
    (n_rel_div st = 0 <-> sum_a_div_rel st = NInt 0) /\
    (n_nonrel_div st = 0 <-> sum_a_div_nonrel st = NInt 0) /\
    (0 < n_rel_adp st <-> exists f, sum_a_adp_rel st = NFloat f) /\
    (0 < n_nonrel_adp st <-> exists f, sum_a_adp_nonrel st = NFloat f) /\
    (0 < n_rel_div st <-> exists f, sum_a_div_rel st = NFloat f) /\
    (0 < n_nonrel_div st <-> exists f, sum_a_div_nonrel st = NFloat f).
Proof.
  exists (summary (rows_read data country)).
  split; [apply country_counters_summary|].
  cbn [summary n_religious n_nonreligious n_rel_adp n_nonrel_adp n_rel_div
       n_nonrel_div sum_a_adp_rel sum_a_adp_nonrel sum_a_div_rel
       sum_a_div_nonrel].
  repeat match goal with
         | |- _ /\ _ => split
         | |- 0 <= size _ => unfold size; lia
         | |- size _ <= count _ _ => apply group_scores_le_count
         | |- size ?xs = 0 <-> _ => apply (proj1 (running_sum_int xs))
         | |- 0 < size ?xs <-> _ => apply (proj2 (running_sum_int xs))
         end.
Qed.

Lemma mean_ok (xs : list float) (m : float) :
  mean xs = Ok m -> is_mean_of m xs.
Proof.
  destruct xs as [|x xs]; [discriminate|].
  unfold mean. cbn [running_sum truediv].
  destruct (size (x :: xs) =? 0); [discriminate|].
  unfold float_of_int.
  destruct (Z.abs (size (x :: xs)) <? float_max_int); [|discriminate].
  cbn [bind]. intros H. injection H as <-.
  exists x, xs. split; reflexivity.
Qed.

Lemma is_mean_of_nonempty (m : float) (xs : list float) :
  is_mean_of m xs -> 1 <= size xs.
Proof.
  intros (x & xs' & -> & _). unfold size. simpl. lia.
Qed.

(** X8. A record returned by [process_country] holds, in this order, the
    numbers of religious and of non-religious respondents among the rows
    read and the four means, each the left-to-right float sum of the scores
    of its group divided by their number; and it is returned only for a
    country with at least one religious and one non-religious respondent. *)
Theorem process_country_record
    (data : dataframe) (country : string) (d : dict num) :
  process_country data country = Ok d ->
  let rows := rows_read data country in
  exists m1 m2 m3 m4,
    d = [ ("rel", NInt (count is_religious rows));
          ("nonrel", NInt (count is_nonreligious rows));
          ("a_adp_rel", NFloat m1);
          ("a_adp_nonrel", NFloat m2);
          ("a_div_rel", NFloat m3);
          ("a_div_nonrel", NFloat m4) ] /\
    is_mean_of m1 (group_scores is_religious a_adp rows) /\
    is_mean_of m2 (group_scores is_nonreligious a_adp rows) /\
    is_mean_of m3 (group_scores is_religious a_div rows) /\
    is_mean_of m4 (group_scores is_nonreligious a_div rows) /\
    1 <= count is_religious rows /\
    1 <= count is_nonreligious rows.
Proof.
  intros Hd rows. rewrite process_country_means in Hd. cbv zeta in Hd.
  fold rows in Hd.
  destruct (mean (group_scores is_religious a_adp rows)) as [m1|] eqn:H1;
    [|discriminate].
  destruct (mean (group_scores is_nonreligious a_adp rows)) as [m2|] eqn:H2;
    [|discriminate].
  destruct (mean (group_scores is_religious a_div rows)) as [m3|] eqn:H3;
    [|discriminate].
  destruct (mean (group_scores is_nonreligious a_div rows)) as [m4|] eqn:H4;
    [|discriminate].
  cbn [bind] in Hd. injection Hd as <-.
  apply mean_ok in H1, H2, H3, H4.
  exists m1, m2, m3, m4.
  split; [reflexivity|].
  repeat (split; [assumption|]).
  pose proof (is_mean_of_nonempty _ _ H1).
  pose proof (is_mean_of_nonempty _ _ H2).
  pose proof (group_scores_le_count is_religious a_adp rows).
  pose proof (group_scores_le_count is_nonreligious a_adp rows).
  lia.
Qed.

Lemma process_country_record_witness :
  exists d m1 m2 m3 m4,
    process_country FR_data "FR" = Ok d /\
    d = [ ("rel", NInt 2); ("nonrel", NInt 1);
          ("a_adp_rel", NFloat m1); ("a_adp_nonrel", NFloat m2);
          ("a_div_rel", NFloat m3); ("a_div_nonrel", NFloat m4) ] /\
    is_mean_of m3 (group_scores is_religious a_div (rows_read FR_data "FR")).
Proof.
  assert (Hd : process_country FR_data "FR" =
               Ok [ ("rel", NInt 2); ("nonrel", NInt 1);
                    ("a_adp_rel", NFloat (-0.5));
                    ("a_adp_nonrel", NFloat 1);
                    ("a_div_rel",
                     NFloat ((0 + (3 - 5.5) / 4.5 + -1) / 2));
                    ("a_div_nonrel", NFloat 1) ]) by reflexivity.
  destruct (process_country_record FR_data "FR" _ Hd)
    as (m1 & m2 & m3 & m4 & Heq & _ & _ & H3 & _).
  eexists _, m1, m2, m3, m4.
  split; [exact Hd|]. split; [exact Heq | exact H3].
Defined.

Lemma country_rows_absent (data : dataframe) (country : string) :
  ~ In country (map c_abrv data) -> country_rows data country = [].
Proof.
  unfold country_rows. induction data as [|r data IH]; simpl; [reflexivity|].
  intros Hnot. destruct (String.eqb_spec (c_abrv r) country) as [Heq|Hne].
  - destruct Hnot. now left.
  - apply IH. tauto.
Qed.

(** X9. For a country code that no row carries (in particular on an empty
    dataframe) [process_country] raises ZeroDivisionError: every sum and
    every counter is still the int 0. *)
Theorem process_country_unknown (data : dataframe) (country : string) :
  ~ In country (map c_abrv data) ->
  country_counters data country = Ok counters0 /\
  process_country data country = Raise ZeroDivisionError.
Proof.
  intros Hnot.
  assert (Hst : country_counters data country = Ok counters0)
    by (unfold country_counters; now rewrite country_rows_absent).
  split; [exact Hst|].
  unfold process_country. rewrite Hst. reflexivity.
Qed.

Lemma process_country_unknown_witness :
  process_country ES_data "FR" = Raise ZeroDivisionError /\
  process_country [] "ES" = Raise ZeroDivisionError.
Proof.
  split.
  - apply process_country_unknown. simpl. intros [H|[H|[H|[]]]]; discriminate.
  - apply process_country_unknown. simpl. tauto.
Defined.

Lemma country_rows_other (other : dataframe) (country : string) :
  Forall (fun r => c_abrv r <> country) other ->
  country_rows other country = [].
Proof.
  intros Hother. apply country_rows_absent.
  rewrite Forall_forall in Hother. intros Hin.
  apply in_map_iff in Hin. destruct Hin as (r & Hr & Hin).
  exact (Hother r Hin Hr).
Qed.

(** X10. The aggregate of a country does not depend on the rows of the
    other countries: rows with other country codes can be put anywhere in
    the dataframe, or taken out, without changing what [process_country]
    returns or raises for this one. *)
Theorem process_country_other_countries
    (before other after : dataframe) (country : string) :
  Forall (fun r => c_abrv r <> country) other ->
  process_country (before ++ other ++ after) country =
    process_country (before ++ after) country.
Proof.
  intros Hother.
  assert (Hrows : country_rows (before ++ other ++ after) country =
                  country_rows (before ++ after) country).
  { unfold country_rows. rewrite !filter_app.
    fold (country_rows other country).
    now rewrite (country_rows_other other country Hother). }
  unfold process_country, country_counters. now rewrite Hrows.
Qed.

Lemma process_country_other_countries_witness :
  process_country (firstn 1 FR_data ++ ES_data ++ skipn 1 FR_data) "FR" =
    process_country (firstn 1 FR_data ++ skipn 1 FR_data) "FR".
Proof.
  apply process_country_other_countries.
  repeat constructor; discriminate.
Defined.

(** ** Row order and concatenation *)

Lemma group_scores_count grp score (rows : list row) :
  size (group_scores grp score rows) =
    count (fun r => grp r && has_score score r) rows.
Proof.
  unfold size, count, group_scores, has_score.
  induction rows as [|r rows IH]; [reflexivity|].
  cbn [flat_map filter]. rewrite length_app.
  destruct (grp r); [destruct (score r)|]; cbn [andb List.length]; lia.
Qed.

Lemma Permutation_filter_keep {A} (p : A -> bool) (l l' : list A) :
  Permutation l l' -> Permutation (filter p l) (filter p l').
Proof.
  intros H. induction H as [|x l l' _ IH|x y l|l l' l'' _ IH1 _ IH2]; simpl.
  - constructor.
  - destruct (p x); [now constructor | exact IH].
  - destruct (p x), (p y); try reflexivity. constructor.
  - now transitivity (filter p l').
Qed.

Lemma count_permutation (p : row -> bool) (rows rows' : list row) :
  Permutation rows rows' -> count p rows = count p rows'.
Proof.
  intros H. unfold count.
  now rewrite (Permutation_length (Permutation_filter_keep p _ _ H)).
Qed.

(** X11. With case numbers all different within the country, the six
    counters of [process_country] do not depend on the order of the rows
    of the dataframe. *)
Theorem counters_under_permutation
    (data data' : dataframe) (country : string) :
  Permutation data data' ->
  NoDup (map caseno (country_rows data country)) ->
  exists st st',
    country_counters data country = Ok st /\
    country_counters data' country = Ok st' /\
    n_religious st = n_religious st' /\
    n_nonreligious st = n_nonreligious st' /\
    n_rel_adp st = n_rel_adp st' /\
    n_nonrel_adp st = n_nonrel_adp st' /\
    n_rel_div st = n_rel_div st' /\
    n_nonrel_div st = n_nonrel_div st'.
Proof.
  intros Hperm Hnd.
  assert (Hrows : Permutation (country_rows data country)
                              (country_rows data' country))
    by now apply Permutation_filter_keep.
  assert (Hnd' : NoDup (map caseno (country_rows data' country)))
    by (eapply Permutation_NoDup; [apply Permutation_map; exact Hrows
                                  | exact Hnd]).
  exists (summary (rows_read data country)),
         (summary (rows_read data' country)).
  rewrite !country_counters_summary.
  rewrite (rows_read_unique data country Hnd).
  rewrite (rows_read_unique data' country Hnd').
  split; [reflexivity|]. split; [reflexivity|].
  cbn [summary n_religious n_nonreligious n_rel_adp n_nonrel_adp n_rel_div
       n_nonrel_div].
  rewrite !group_scores_count.
  repeat split; now apply count_permutation.
Qed.

Lemma counters_under_permutation_witness :
  exists st st',
    country_counters order_data "ES" = Ok st /\
    country_counters order_data' "ES" = Ok st' /\
    n_religious st = n_religious st' /\
    n_nonreligious st = n_nonreligious st' /\
    n_rel_adp st = n_rel_adp st' /\
    n_nonrel_adp st = n_nonrel_adp st' /\
    n_rel_div st = n_rel_div st' /\
    n_nonrel_div st = n_nonrel_div st'.
Proof.
  apply counters_under_permutation.
  - unfold order_data, order_data'.
    apply Permutation_sym.
    apply (@Permutation_cons_app _ _ (_ :: _ :: nil) (_ :: nil)).
    apply Permutation_refl.
  - repeat constructor; simpl; intuition discriminate.
Defined.

(** X12. The means do depend on the order of the rows, even with case
    numbers all different: float addition is not associative, and the
    divorce answers 1, 1, 4 and 4, 1, 1 of the same three religious
    respondents give two different means a_div_rel. *)
Theorem means_depend_on_order :
  Permutation order_data order_data' /\
  NoDup (map caseno order_data) /\
  exists d d' m m',
    process_country order_data "ES" = Ok d /\
    process_country order_data' "ES" = Ok d' /\
    dict_get d "a_div_rel" = Ok (NFloat m) /\
    dict_get d' "a_div_rel" = Ok (NFloat m') /\
    (m =? m')%float = false.
Proof.
  split; [|split].
  - unfold order_data, order_data'.
    apply Permutation_sym.
    apply (@Permutation_cons_app _ _ (_ :: _ :: nil) (_ :: nil)).
    apply Permutation_refl.
  - repeat constructor; simpl; intuition discriminate.
  - eexists _, _, _, _.
    split; [reflexivity|]. split; [reflexivity|].
    split; [reflexivity|]. split; reflexivity.
Qed.

Lemma count_app (p : row -> bool) (rows rows' : list row) :
  count p (rows ++ rows') = count p rows + count p rows'.
Proof.
  unfold count. rewrite filter_app, length_app. lia.
Qed.

(** X13. With case numbers all different within the country, the six
    counters of a dataframe made of two parts are the sums of the counters
    of the parts. *)
Theorem counters_of_concatenation
    (data1 data2 : dataframe) (country : string) :
  NoDup (map caseno (country_rows (data1 ++ data2) country)) ->
  exists st st1 st2,
    country_counters (data1 ++ data2) country = Ok st /\
    country_counters data1 country = Ok st1 /\
    country_counters data2 country = Ok st2 /\
    n_religious st = n_religious st1 + n_religious st2 /\
    n_nonreligious st = n_nonreligious st1 + n_nonreligious st2 /\
    n_rel_adp st = n_rel_adp st1 + n_rel_adp st2 /\
    n_nonrel_adp st = n_nonrel_adp st1 + n_nonrel_adp st2 /\
    n_rel_div st = n_rel_div st1 + n_rel_div st2 /\
    n_nonrel_div st = n_nonrel_div st1 + n_nonrel_div st2.
Proof.
  intros Hnd.
  assert (Hrows : country_rows (data1 ++ data2) country =
                  country_rows data1 country ++ country_rows data2 country)
    by apply filter_app.
  assert (Hnd12 : NoDup (map caseno (country_rows data1 country) ++
                         map caseno (country_rows data2 country)))
    by (rewrite <- map_app, <- Hrows; exact Hnd).
  pose proof (NoDup_app_remove_r _ _ Hnd12) as Hnd1.
  pose proof (NoDup_app_remove_l _ _ Hnd12) as Hnd2.
  exists (summary (rows_read (data1 ++ data2) country)),
         (summary (rows_read data1 country)),
         (summary (rows_read data2 country)).
  rewrite !country_counters_summary.
  rewrite (rows_read_unique _ country Hnd), Hrows.
  rewrite (rows_read_unique data1 country Hnd1).
  rewrite (rows_read_unique data2 country Hnd2).
  split; [reflexivity|]. split; [reflexivity|]. split; [reflexivity|].
  cbn [summary n_religious n_nonreligious n_rel_adp n_nonrel_adp n_rel_div
       n_nonrel_div].
  rewrite !group_scores_count.
  repeat split; apply count_app.
Qed.

Lemma counters_of_concatenation_witness :
  exists st st1 st2,
    country_counters (firstn 2 order_data ++ skipn 2 order_data) "ES" = Ok st /\
    country_counters (firstn 2 order_data) "ES" = Ok st1 /\
    country_counters (skipn 2 order_data) "ES" = Ok st2 /\
    n_religious st = n_religious st1 + n_religious st2 /\
    n_nonreligious st = n_nonreligious st1 + n_nonreligious st2 /\
    n_rel_adp st = n_rel_adp st1 + n_rel_adp st2 /\
    n_nonrel_adp st = n_nonrel_adp st1 + n_nonrel_adp st2 /\
    n_rel_div st = n_rel_div st1 + n_rel_div st2 /\
    n_nonrel_div st = n_nonrel_div st1 + n_nonrel_div st2.
Proof.
  apply counters_of_concatenation.
  repeat constructor; simpl; intuition discriminate.
Defined.

(** * Further properties of the driver *)

Lemma truediv_raises (a b : num) (e : exn) :
  truediv a b = Raise e -> e = ZeroDivisionError \/ e = OverflowError.
Proof.
  destruct a as [x|x], b as [y|y];
    unfold truediv, int_true_divide, to_float, float_of_int; cbn [bind];
    repeat match goal with
           | |- context [if ?c then _ else _] => destruct c; cbn [bind]
           | |- context [match ?c with S754_zero _ => _ | _ => _ end] =>
               destruct c
           end;
    intros H; try discriminate H; injection H as <-; auto.
Qed.

Lemma process_country_raises (data : dataframe) (country : string) (e : exn) :
  process_country data country = Raise e ->
  e = ZeroDivisionError \/ e = OverflowError.
Proof.
  unfold process_country. rewrite country_counters_summary. cbn [bind].
  repeat match goal with
         | |- context [bind (truediv ?a ?b) _] =>
             let H := fresh "Hdiv" in
             destruct (truediv a b) eqn:H;
             [cbn [bind] | intros Heq; injection Heq as <-;
                           exact (truediv_raises _ _ _ H)]
         end.
  discriminate.
Qed.

Lemma process_country_raises_bounded
    (data : dataframe) (country : string) (e : exn) :
  Z.of_nat (List.length data) < 2 ^ 63 ->
  process_country data country = Raise e -> e = ZeroDivisionError.
Proof.
  intros Hlen. rewrite process_country_means. cbv zeta.
  repeat match goal with
         | |- context [bind (mean ?xs) _] =>
             destruct (mean_cases xs (group_scores_size _ _ data country Hlen))
               as [[_ ->] | [_ [? ->]]]; cbn [bind]
         end;
    intros H; try discriminate H; now injection H.
Qed.

Lemma mapM_raises {A B} (f : A -> result B) (l : list A) (e : exn) :
  mapM f l = Raise e -> exists x, In x l /\ f x = Raise e.
Proof.
  induction l as [|x l IH]; simpl; [discriminate|].
  destruct (f x) as [y|e'] eqn:Hx; cbn [bind].
  - destruct (mapM f l) as [ys|e'']; cbn [bind]; [discriminate|].
    intros H. injection H as ->.
    destruct (IH eq_refl) as (x' & Hin & Hx'). eauto.
  - intros H. injection H as ->. eauto.
Qed.

Lemma unique_nil (l : list string) : unique l = [] <-> l = [].
Proof.
  rewrite unique_first_seen. destruct l; simpl; split; auto; discriminate.
Qed.

Lemma unique_In (l : list string) (x : string) :
  In x (unique l) <-> In x l.
Proof.
  rewrite unique_first_seen. apply first_seen_In.
Qed.

(** What a run of the driver that ends with a table went through. *)
Lemma main_ok (df : dataframe) (table : list (list cell)) :
  main df = Ok table ->
  exists records,
    Forall2 (fun c d => process_country df c = Ok d)
            (unique (map c_abrv df)) records /\
    unique (map c_abrv df) <> [] /\
    table = header ::
            map (fun kv => csv_row (fst kv) (snd kv))
                (combine (unique (map c_abrv df)) records).
Proof.
  rewrite main_closed_form.
  destruct (mapM (process_country df) (unique (map c_abrv df)))
    as [records|e] eqn:Hrecords; cbn [bind]; [|discriminate].
  intros H. exists records.
  split; [now apply mapM_Forall2|].
  destruct (unique (map c_abrv df)); [discriminate|].
  split; [discriminate|]. now injection H.
Qed.

(** X14. The driver raises NameError exactly on a dataframe without rows:
    the first loop never binds [country], which the header is then asked
    of. *)
Theorem main_name_error (df : dataframe) :
  main df = Raise NameError <-> df = [].
Proof.
  split; [|intros ->; reflexivity].
  rewrite main_closed_form.
  destruct (mapM (process_country df) (unique (map c_abrv df)))
    as [records|e] eqn:Hrecords; cbn [bind].
  - destruct (unique (map c_abrv df)) eqn:Hu; [|discriminate].
    intros _. apply unique_nil in Hu. now destruct df.
  - intros H. injection H as ->.
    destruct (mapM_raises _ _ _ Hrecords) as (c & _ & Hc).
    destruct (process_country_raises _ _ _ Hc); discriminate.
Qed.

(** X15. On a dataframe of fewer than 2^63 rows the driver raises nothing
    but NameError (no row at all) and ZeroDivisionError (a country whose
    aggregate divides by zero): the look-ups in its dictionaries never
    fail. *)
Theorem main_raises (df : dataframe) (e : exn) :
  Z.of_nat (List.length df) < 2 ^ 63 ->
  main df = Raise e ->
  (e = NameError /\ df = []) \/
  (e = ZeroDivisionError /\
   exists c, In c (map c_abrv df) /\
             process_country df c = Raise ZeroDivisionError).
Proof.
  intros Hlen Hmain.
  pose proof Hmain as Hform. rewrite main_closed_form in Hform.
  destruct (mapM (process_country df) (unique (map c_abrv df)))
    as [records|e'] eqn:Hrecords; cbn [bind] in Hform.
  - destruct (unique (map c_abrv df)) eqn:Hu; [|discriminate].
    injection Hform as <-. left. split; [reflexivity|].
    apply unique_nil in Hu. now destruct df.
  - injection Hform as ->.
    destruct (mapM_raises _ _ _ Hrecords) as (c & Hin & Hc).
    pose proof (process_country_raises_bounded _ _ _ Hlen Hc) as ->.
    right. split; [reflexivity|]. exists c.
    split; [now apply unique_In | exact Hc].
Qed.

Lemma main_raises_witness :
  (ZeroDivisionError = NameError /\ ES_data = []) \/
  (ZeroDivisionError = ZeroDivisionError /\
   exists c, In c (map c_abrv ES_data) /\
             process_country ES_data c = Raise ZeroDivisionError).
Proof.
  apply main_raises; reflexivity.
Defined.

Lemma csv_row_length (c : string) (d : dict num) :
  keys d = record_keys -> List.length (csv_row c d) = 7%nat.
Proof.
  intros Hkeys. unfold csv_row. cbn [List.length]. rewrite length_map.
  rewrite <- (length_map fst d). fold (keys d). now rewrite Hkeys.
Qed.

(** X16. A table written by the driver is rectangular: it has one row more
    than there are distinct country codes, every row has seven fields, and
    the first column reads "country" and then the distinct country codes in
    the order of their first appearance. *)
Theorem main_table_shape (df : dataframe) (table : list (list cell)) :
  main df = Ok table ->
  List.length table = S (List.length (unique (map c_abrv df))) /\
  Forall (fun r => List.length r = 7%nat) table /\
  map (hd (CStr "")) table =
    CStr "country" :: map CStr (first_seen (map c_abrv df)).
Proof.
  intros Hmain.
  destruct (main_ok df table Hmain) as (records & Hall & _ & ->).
  clear Hmain. rewrite <- unique_first_seen.
  remember (unique (map c_abrv df)) as countries eqn:Hcountries.
  clear Hcountries.
  induction Hall as [|c d cs ds Hcd Hall IH].
  - repeat split. repeat constructor.
  - destruct IH as (Hlen & Hrows & Hcol).
    cbn [combine map List.length fst snd] in *.
    split; [congruence|]. split.
    + inversion Hrows as [|? ? Hhead Htail]; subst.
      constructor; [exact Hhead|]. constructor; [|exact Htail].
      apply csv_row_length. exact (process_country_keys df c d Hcd).
    + injection Hcol as Hcol. cbn [hd csv_row]. now rewrite Hcol.
Qed.

Lemma main_table_shape_witness :
  exists table,
    main two_countries = Ok table /\
    List.length table = 3%nat /\
    Forall (fun r => List.length r = 7%nat) table /\
    map (hd (CStr "")) table = [CStr "country"; CStr "FR"; CStr "ES"].
Proof.
  eexists. split; [reflexivity|].
  apply (main_table_shape two_countries). reflexivity.
Defined.

(** X17. The driver writes all rows or none: when it ends with a table the
    dataframe has rows, and for every country code that occurs in it
    [process_country] returned a record, whose row is in the table. *)
Theorem main_all_or_nothing (df : dataframe) (table : list (list cell)) :
  main df = Ok table ->
  df <> [] /\
  forall c, In c (map c_abrv df) ->
            exists d, process_country df c = Ok d /\
                      In (csv_row c d) table.
Proof.
  intros Hmain.
  destruct (main_ok df table Hmain) as (records & Hall & Hne & ->).
  split.
  - intros ->. now apply Hne.
  - intros c Hc. apply unique_In in Hc.
    destruct (combine_In_left _ records c (Forall2_length Hall) Hc)
      as [d Hd].
    exists d. split.
    + exact (Forall2_combine_in _ _ _ _ _ Hall Hd).
    + right. change (csv_row c d) with
        ((fun kv => csv_row (fst kv) (snd kv)) (c, d)).
      now apply in_map.
Qed.

Lemma main_all_or_nothing_witness :
  exists table d,
    main two_countries = Ok table /\
    process_country two_countries "ES" = Ok d /\
    In (csv_row "ES" d) table.
Proof.
  assert (Hmain : exists table, main two_countries = Ok table)
    by (eexists; reflexivity).
  destruct Hmain as [table Hmain].
  destruct (main_all_or_nothing two_countries table Hmain) as [_ Hrows].
  destruct (Hrows "ES") as (d & Hd & Hin); [simpl; tauto|].
  exists table, d. auto.
Defined.

(** ** The containers of the driver *)

Lemma dict_get_cons_other {V} (d : dict V) (k k' : string) (v : V) :
  k' <> k -> dict_get ((k, v) :: d) k' = dict_get d k'.
Proof.
  intros Hne. unfold dict_get. simpl.
  destruct (String.eqb_spec k k'); [congruence | reflexivity].
Qed.

(** X18. [dictionary.update({k: v})] followed by a look-up: the key [k]
    then holds [v], every other key holds what it held, a key already
    present keeps its place in the order of the keys and a new key goes
    last. *)
Theorem dict_update_get {V} (d : dict V) (k : string) (v : V) :
  dict_get (dict_update d k v) k = Ok v /\
  (forall k', k' <> k -> dict_get (dict_update d k v) k' = dict_get d k') /\
  (In k (keys d) -> keys (dict_update d k v) = keys d) /\
  (~ In k (keys d) -> keys (dict_update d k v) = keys d ++ [k]).
Proof.
  induction d as [|[k0 v0] d (IHget & IHother & IHin & IHnew)].
  - simpl. split; [apply dict_get_head|].
    split; [intros k' Hne; now apply dict_get_cons_other|].
    split; [intros []|reflexivity].
  - cbn [dict_update]. destruct (String.eqb_spec k0 k) as [->|Hne].
    + split; [apply dict_get_head|].
      split; [intros k' Hk'; now rewrite !dict_get_cons_other by exact Hk'|].
      split; [reflexivity|]. intros Hnot. destruct Hnot. now left.
    + split; [rewrite dict_get_cons_other by congruence; exact IHget|].
      split.
      * intros k' Hk'. destruct (String.eqb_spec k' k0) as [->|Hne'].
        -- now rewrite !dict_get_head.
        -- rewrite !dict_get_cons_other by exact Hne'. now apply IHother.
      * cbn [keys map fst] in *. split.
        -- intros [Heq|Hin]; [congruence|]. f_equal. now apply IHin.
        -- intros Hnot. cbn [app]. f_equal. apply IHnew.
           intros Hin. apply Hnot. now right.
Qed.

Lemma dict_update_get_witness :
  keys (dict_update [("ES", 1); ("FR", 2)] "ES" 3) = ["ES"; "FR"] /\
  keys (dict_update [("ES", 1); ("FR", 2)] "PT" 3) = ["ES"; "FR"; "PT"].
Proof.
  split.
  - refine (proj1 (proj2 (proj2
              (dict_update_get [("ES", 1); ("FR", 2)] "ES" 3))) _).
    simpl. tauto.
  - refine (proj2 (proj2 (proj2
              (dict_update_get [("ES", 1); ("FR", 2)] "PT" 3))) _).
    simpl. intros [H|[H|[]]]; discriminate.
Defined.

Lemma filter_all {A} (p : A -> bool) (l : list A) :
  (forall x, In x l -> p x = true) -> filter p l = l.
Proof.
  induction l as [|x l IH]; simpl; intros H; [reflexivity|].
  rewrite (H x) by now left. f_equal. apply IH. intros y Hy. apply H. now right.
Qed.

Lemma first_seen_NoDup_id (l : list string) : NoDup l -> first_seen l = l.
Proof.
  induction l as [|x l IH]; simpl; intros Hnd; [reflexivity|].
  inversion Hnd as [|? ? Hnotin Hnd']; subst.
  rewrite IH by exact Hnd'. f_equal. apply filter_all.
  intros y Hy. destruct (String.eqb_spec y x) as [->|]; [contradiction|].
  reflexivity.
Qed.

(** X19. The enumeration of the country codes leaves a column of distinct
    codes as it is, gives the same list when applied twice, never gives
    more codes than there are rows, and is empty only for an empty
    column. *)
Theorem unique_fixed (l : list string) :
  (NoDup l -> unique l = l) /\
  unique (unique l) = unique l /\
  (List.length (unique l) <= List.length l)%nat /\
  (unique l = [] <-> l = []).
Proof.
  split; [|split; [|split]].
  - intros Hnd. rewrite unique_first_seen. now apply first_seen_NoDup_id.
  - rewrite (unique_first_seen (unique l)).
    apply first_seen_NoDup_id, unique_NoDup.
  - rewrite unique_first_seen.
    induction l as [|x l IH]; simpl; [lia|].
    pose proof (filter_length_le (fun y => negb (String.eqb y x))
                                 (first_seen l)). lia.
  - apply unique_nil.
Qed.

Lemma unique_fixed_witness :
  unique ["FR"; "ES"; "PT"] = ["FR"; "ES"; "PT"].
Proof.
  apply (proj1 (unique_fixed _)).
  repeat constructor; simpl; intuition discriminate.
Defined.
